(** * WDK Indexer HTTP client: a shallow embedding of [index.js]

    The development follows the source file top to bottom: the JavaScript
    data the client touches (strings as UTF-16 code units, JSON-like values,
    thrown completions), the error classes, the three structural classifiers,
    the constructor, the request executor [_request] as a transition system
    over its await points, and the five public operations.

    Scope of the embedding.  Arguments have the types index.d.ts gives them:
    addresses, blockchains and tokens are strings, options hold numbers, a
    transport resolves to a response with [ok], [status] and [statusText].
    Numbers are integers.  A parsed body, and a value thrown by a transport,
    is [undefined] or JSON-like data; an [Error] is its name and message.
    The transport and the timer are the environment: they act on an in-flight
    request through events, and every statement about an operation holds for
    all sequences of events unless it names one. *)

From Stdlib Require Import ZArith List String Ascii Bool Lia Decimal.
Import ListNotations.
Open Scope Z_scope.
Set Warnings "-register-all".

(** ** JavaScript strings *)

(** A JavaScript string is a sequence of 16-bit code units. *)
Definition jsstring : Type := list Z.

(** [lit s] is the JavaScript string literal written with the ASCII text [s]. *)
Definition lit (s : string) : jsstring :=
  map (fun a => Z.of_N (N_of_ascii a)) (list_ascii_of_string s).

Fixpoint jsstring_eqb (a b : jsstring) : bool :=
  match a, b with
  | [], [] => true
  | x :: a', y :: b' => (x =? y) && jsstring_eqb a' b'
  | _, _ => false
  end.

Definition mem (key : jsstring) (keys : list jsstring) : bool :=
  existsb (jsstring_eqb key) keys.

(** [String.prototype.startsWith] and [String.prototype.includes]. *)
Fixpoint startsWith (hay needle : jsstring) {struct needle} : bool :=
  match needle, hay with
  | [], _ => true
  | n :: needle', h :: hay' => (h =? n) && startsWith hay' needle'
  | _ :: _, [] => false
  end.

Fixpoint includes (hay needle : jsstring) : bool :=
  startsWith hay needle ||
  match hay with
  | [] => false
  | _ :: hay' => includes hay' needle
  end.

(** [Number::toString] on an integral Number below 10^21 in magnitude: the
    plain decimal numeral.  Numbers are modelled by [Z]; the status codes,
    limits and timestamps the client handles are such integers. *)
Fixpoint uint_digits (d : Decimal.uint) : jsstring :=
  match d with
  | Nil => []
  | D0 d => 48 :: uint_digits d
  | D1 d => 49 :: uint_digits d
  | D2 d => 50 :: uint_digits d
  | D3 d => 51 :: uint_digits d
  | D4 d => 52 :: uint_digits d
  | D5 d => 53 :: uint_digits d
  | D6 d => 54 :: uint_digits d
  | D7 d => 55 :: uint_digits d
  | D8 d => 56 :: uint_digits d
  | D9 d => 57 :: uint_digits d
  end.

Definition Number_toString (n : Z) : jsstring :=
  match Z.to_int n with
  | Decimal.Pos d => uint_digits d
  | Decimal.Neg d => 45 :: uint_digits d
  end.

(** [Number.isSafeInteger]: every such integer is a Number, and its
    [Number::toString] is the decimal numeral above.  From 10^21 on a Number
    is written with an exponent ([1e+21]), so what is proved from the
    characters of the numeral is proved for safe integers. *)
Definition MAX_SAFE_INTEGER : Z := 9007199254740991.

Definition isSafeInteger (n : Z) : bool :=
  (- MAX_SAFE_INTEGER <=? n) && (n <=? MAX_SAFE_INTEGER).

(** ** Exported enumerations (index.js lines 24-37) *)

Definition BLOCKCHAINS : list jsstring :=
  map lit [ "ethereum"; "sepolia"; "plasma"; "arbitrum"; "polygon"; "tron";
            "ton"; "bitcoin"; "spark" ]%string.

Definition TOKENS : list jsstring := map lit [ "usdt"; "xaut"; "btc" ]%string.

(** ** Values and completions *)

(** The values the client inspects: [undefined] and the data a JSON body
    parses to.  An object is the list of its own properties in property
    order; a lookup takes the first binding of a key. *)
Inductive value : Type :=
  | VUndefined
  | VNull
  | VBool (b : bool)
  | VNumber (n : Z)
  | VString (s : jsstring)
  | VArray (elements : list value)
  | VObject (properties : list (jsstring * value)).

(** An instance of [Error] that is not a [WdkIndexerError]. *)
Record JsError : Type := mkJsError {
  err_name : jsstring;
  err_message : jsstring
}.

(** The SDK's error classes (index.js lines 42-80).  [WdkIndexerError] is the
    base class; the constructor of the client throws it directly, so the
    base-class instance is the configuration error kind. *)
Inductive sdk_error : Type :=
  | WdkIndexerError (message : jsstring)
  | WdkIndexerApiError (message : jsstring) (status errorType : value)
  | WdkIndexerTimeoutError (message : jsstring)
  | WdkIndexerNetworkError (message : jsstring) (cause : option JsError).

(** Anything a [throw] (or a rejected promise) can carry. *)
Inductive thrown : Type :=
  | ThrowSdk (e : sdk_error)
  | ThrowError (e : JsError)
  | ThrowValue (v : value).

(** The completion of an expression: a value, or an abrupt [throw]. *)
Inductive completion (A : Type) : Type :=
  | Normal (a : A)
  | Throw (t : thrown).
Arguments Normal {A} a.
Arguments Throw {A} t.

Definition bind {A B} (c : completion A) (k : A -> completion B) : completion B :=
  match c with
  | Normal a => k a
  | Throw t => Throw t
  end.

Notation "x <- c ;; k" := (bind c (fun x => k))
  (at level 61, c at next level, right associativity).

(** The short-circuit [&&] on boolean operands. *)
Definition js_and (a b : completion bool) : completion bool :=
  x <- a ;; if x then b else Normal false.
Infix "&&&" := js_and (at level 40, left associativity).

Definition TypeError (message : jsstring) : thrown :=
  ThrowError (mkJsError (lit "TypeError") message).
Definition URIError (message : jsstring) : thrown :=
  ThrowError (mkJsError (lit "URIError") message).

(** *** Property keys *)

Definition Object_prototype_keys : list jsstring :=
  map lit [ "constructor"; "__defineGetter__"; "__defineSetter__";
            "hasOwnProperty"; "__lookupGetter__"; "__lookupSetter__";
            "isPrototypeOf"; "propertyIsEnumerable"; "toString"; "valueOf";
            "__proto__"; "toLocaleString" ]%string.

Definition Array_prototype_keys : list jsstring :=
  map lit [ "length"; "constructor"; "at"; "concat"; "copyWithin"; "fill";
            "find"; "findIndex"; "findLast"; "findLastIndex"; "lastIndexOf";
            "pop"; "push"; "reverse"; "shift"; "unshift"; "slice"; "sort";
            "splice"; "includes"; "indexOf"; "join"; "keys"; "entries";
            "values"; "forEach"; "filter"; "flat"; "flatMap"; "map"; "every";
            "some"; "reduce"; "reduceRight"; "toLocaleString"; "toString";
            "toReversed"; "toSorted"; "toSpliced"; "with" ]%string.

Fixpoint lookup (key : jsstring) (props : list (jsstring * value)) : option value :=
  match props with
  | [] => None
  | (k, v) :: rest => if jsstring_eqb key k then Some v else lookup key rest
  end.

Definition has_own (key : jsstring) (props : list (jsstring * value)) : bool :=
  mem key (map fst props).

(** The index keys "0", "1", ... of an array of the given length. *)
Definition is_index_key (key : jsstring) (len : nat) : bool :=
  existsb (fun i => jsstring_eqb key (Number_toString (Z.of_nat i))) (seq 0 len).

(** [typeof v]. *)
Definition typeof (v : value) : jsstring :=
  match v with
  | VUndefined => lit "undefined"
  | VNull => lit "object"
  | VBool _ => lit "boolean"
  | VNumber _ => lit "number"
  | VString _ => lit "string"
  | VArray _ => lit "object"
  | VObject _ => lit "object"
  end.

(** [v !== null]. *)
Definition not_null (v : value) : bool :=
  match v with
  | VNull => false
  | _ => true
  end.

(** [key in v]: own or inherited property of an object; a [TypeError] when
    the right operand is not an object. *)
Definition in_operator (key : jsstring) (v : value) : completion bool :=
  match v with
  | VObject props => Normal (has_own key props || mem key Object_prototype_keys)
  | VArray elements =>
      Normal (is_index_key key (List.length elements)
              || mem key Array_prototype_keys
              || mem key Object_prototype_keys)
  | _ => Throw (TypeError (lit "Cannot use 'in' operator to search for '"
                           ++ key ++ lit "' in a value that is not an object"))
  end.

(** ** Structural classifiers (index.js lines 87-113) *)

Definition isApiError (response : value) : completion bool :=
  Normal (jsstring_eqb (typeof response) (lit "object")) &&&
  Normal (not_null response) &&&
  in_operator (lit "error") response &&&
  in_operator (lit "message") response &&&
  in_operator (lit "status") response.

Definition isTokenTransfersResponse (item : value) : completion bool :=
  in_operator (lit "transfers") item.

Definition isTokenBalanceResponse (item : value) : completion bool :=
  in_operator (lit "tokenBalance") item.

(** ** Conversions *)

Definition comma : jsstring := lit ",".

(** [Array.prototype.join] with the default separator, over the conversion
    [element] of one element to a string. *)
Section ArrayJoin.

Variable element : value -> completion jsstring.

Fixpoint Array_join (l : list value) : completion jsstring :=
  match l with
  | [] => Normal []
  | x :: rest =>
      piece <- element x ;;
      match rest with
      | [] => Normal piece
      | _ :: _ => tail <- Array_join rest ;; Normal (piece ++ comma ++ tail)
      end
  end.

End ArrayJoin.

(** [ToString] on data.  An array is joined with commas ([undefined] and
    [null] elements give the empty string); a plain object inherits
    [Object.prototype.toString] unless it shadows it with an own data property
    named [toString], in which case no method yields a primitive and the
    conversion throws. *)
Fixpoint ToString (v : value) : completion jsstring :=
  match v with
  | VUndefined => Normal (lit "undefined")
  | VNull => Normal (lit "null")
  | VBool true => Normal (lit "true")
  | VBool false => Normal (lit "false")
  | VNumber n => Normal (Number_toString n)
  | VString s => Normal s
  | VArray elements =>
      Array_join (fun x => match x with
                           | VUndefined | VNull => Normal []
                           | _ => ToString x
                           end) elements
  | VObject props =>
      if has_own (lit "toString") props
      then Throw (TypeError (lit "Cannot convert object to primitive value"))
      else Normal (lit "[object Object]")
  end.

(** [ToBoolean] on a string: the empty string is the only falsy one. *)
Definition truthy_string (s : jsstring) : bool :=
  match s with
  | [] => false
  | _ :: _ => true
  end.

(** [ToBoolean] on data. *)
Definition ToBoolean (v : value) : bool :=
  match v with
  | VUndefined | VNull => false
  | VBool b => b
  | VNumber n => negb (n =? 0)
  | VString s => truthy_string s
  | VArray _ | VObject _ => true
  end.

(** [o.key] on data whose prototype does not define [key]. *)
Definition Get (key : jsstring) (o : value) : completion value :=
  match o with
  | VObject props =>
      Normal (match lookup key props with Some v => v | None => VUndefined end)
  | VUndefined | VNull =>
      Throw (TypeError (lit "Cannot read properties of undefined or null"))
  | _ => Normal VUndefined
  end.

(** ** Error constructors (index.js lines 42-80) *)

(** [Error(message)]: the message is converted with [ToString] unless it is
    [undefined], in which case the instance reads [Error.prototype.message]. *)
Definition Error_message (message : value) : completion jsstring :=
  match message with
  | VUndefined => Normal []
  | _ => ToString message
  end.

Definition new_WdkIndexerApiError (apiError : value) : completion sdk_error :=
  m <- Get (lit "message") apiError ;;
  message <- Error_message m ;;
  status <- Get (lit "status") apiError ;;
  errorType <- Get (lit "error") apiError ;;
  Normal (WdkIndexerApiError message status errorType).

Definition new_WdkIndexerTimeoutError (timeout : Z) : sdk_error :=
  WdkIndexerTimeoutError
    (lit "Request timed out after " ++ Number_toString timeout ++ lit "ms").

Definition new_WdkIndexerNetworkError (message : jsstring) (cause : option JsError)
  : sdk_error :=
  WdkIndexerNetworkError message cause.

(** [this.name] as each constructor sets it. *)
Definition sdk_name (e : sdk_error) : jsstring :=
  match e with
  | WdkIndexerError _ => lit "WdkIndexerError"
  | WdkIndexerApiError _ _ _ => lit "WdkIndexerApiError"
  | WdkIndexerTimeoutError _ => lit "WdkIndexerTimeoutError"
  | WdkIndexerNetworkError _ _ => lit "WdkIndexerNetworkError"
  end.

(** [error instanceof WdkIndexerError]. *)
Definition instanceof_WdkIndexerError (t : thrown) : bool :=
  match t with
  | ThrowSdk _ => true
  | _ => false
  end.

(** ** Percent-encoding *)

Definition is_alnum (c : Z) : bool :=
  ((48 <=? c) && (c <=? 57)) || ((65 <=? c) && (c <=? 90))
  || ((97 <=? c) && (c <=? 122)).

(** The characters [encodeURIComponent] leaves alone: letters, digits and
    the marks [- _ . ! ~ * ' ( )]. *)
Definition uri_unescaped (c : Z) : bool :=
  is_alnum c || existsb (Z.eqb c) (lit "-_.!~*'()").

Definition is_leading_surrogate (c : Z) : bool := (0xD800 <=? c) && (c <=? 0xDBFF).
Definition is_trailing_surrogate (c : Z) : bool := (0xDC00 <=? c) && (c <=? 0xDFFF).

Definition surrogate_pair (lead trail : Z) : Z :=
  (lead - 0xD800) * 0x400 + (trail - 0xDC00) + 0x10000.

Definition utf8_encode (cp : Z) : list Z :=
  if cp <? 0x80 then [cp]
  else if cp <? 0x800 then
    [Z.lor 0xC0 (Z.shiftr cp 6); Z.lor 0x80 (Z.land cp 0x3F)]
  else if cp <? 0x10000 then
    [Z.lor 0xE0 (Z.shiftr cp 12);
     Z.lor 0x80 (Z.land (Z.shiftr cp 6) 0x3F);
     Z.lor 0x80 (Z.land cp 0x3F)]
  else
    [Z.lor 0xF0 (Z.shiftr cp 18);
     Z.lor 0x80 (Z.land (Z.shiftr cp 12) 0x3F);
     Z.lor 0x80 (Z.land (Z.shiftr cp 6) 0x3F);
     Z.lor 0x80 (Z.land cp 0x3F)].

Definition hex_digit (n : Z) : Z :=
  nth (Z.to_nat (Z.land n 15)) (lit "0123456789ABCDEF") 48.

(** ["%XX"] for one octet. *)
Definition percent_octet (b : Z) : jsstring :=
  [37; hex_digit (Z.shiftr b 4); hex_digit b].

Definition percent_octets (bs : list Z) : jsstring :=
  flat_map percent_octet bs.

Definition URI_malformed : thrown := URIError (lit "URI malformed").

(** [encodeURIComponent]: an unescaped code unit is copied; any other code
    point is written as the percent-encoded octets of its UTF-8 form; an
    unpaired surrogate throws a [URIError]. *)
Fixpoint encodeURIComponent (s : jsstring) : completion jsstring :=
  match s with
  | [] => Normal []
  | C :: rest =>
      if uri_unescaped C then
        R <- encodeURIComponent rest ;; Normal (C :: R)
      else if is_trailing_surrogate C then Throw URI_malformed
      else if is_leading_surrogate C then
        match rest with
        | [] => Throw URI_malformed
        | second :: rest' =>
            if is_trailing_surrogate second then
              R <- encodeURIComponent rest' ;;
              Normal (percent_octets (utf8_encode (surrogate_pair C second)) ++ R)
            else Throw URI_malformed
        end
      else
        R <- encodeURIComponent rest ;;
        Normal (percent_octets (utf8_encode C) ++ R)
  end.

(** *** [URLSearchParams] *)

(** The scalar values of a string handed to a Web API: surrogate pairs are
    combined and an unpaired surrogate becomes U+FFFD. *)
Fixpoint scalar_values (s : jsstring) : list Z :=
  match s with
  | [] => []
  | C :: rest =>
      if is_trailing_surrogate C then 0xFFFD :: scalar_values rest
      else if is_leading_surrogate C then
        match rest with
        | [] => [0xFFFD]
        | second :: rest' =>
            if is_trailing_surrogate second
            then surrogate_pair C second :: scalar_values rest'
            else 0xFFFD :: scalar_values rest
        end
      else C :: scalar_values rest
  end.

(** The application/x-www-form-urlencoded byte serializer: a space becomes
    [+]; letters, digits and [* - . _] are kept; every other octet is
    percent-encoded. *)
Definition form_safe (b : Z) : bool :=
  is_alnum b || existsb (Z.eqb b) (lit "*-._").

Definition form_octet (b : Z) : jsstring :=
  if b =? 32 then [43]
  else if form_safe b then [b]
  else percent_octet b.

Definition form_urlencode (s : jsstring) : jsstring :=
  flat_map form_octet (flat_map utf8_encode (scalar_values s)).

Definition URLSearchParams : Type := list (jsstring * jsstring).

Definition new_URLSearchParams : URLSearchParams := [].

Definition append (params : URLSearchParams) (name val : jsstring) : URLSearchParams :=
  params ++ [(name, val)].

Fixpoint URLSearchParams_toString (params : URLSearchParams) : jsstring :=
  match params with
  | [] => []
  | (name, val) :: rest =>
      form_urlencode name ++ lit "=" ++ form_urlencode val ++
      match rest with
      | [] => []
      | _ :: _ => lit "&" ++ URLSearchParams_toString rest
      end
  end.

(** ** The client (index.js lines 132-159) *)

(** A callable transport.  What a call to it does is supplied by the
    environment as the events of the request it starts. *)
Inductive fetch_function : Type :=
  | FetchFunction (id : nat).

(** The [config] argument; [None] is an absent field. *)
Record WdkIndexerConfig : Type := mkConfig {
  config_apiKey : option jsstring;
  config_baseUrl : option jsstring;
  config_timeout : option Z;
  config_fetch : option fetch_function
}.

Record WdkIndexerClient : Type := mkClient {
  apiKey : jsstring;
  baseUrl : jsstring;
  timeout : Z;
  fetchFn : fetch_function
}.

(** [s.replace(/\/$/, '')]: one slash is dropped when it ends the string. *)
Fixpoint replace_trailing_slash (s : jsstring) : jsstring :=
  match s with
  | [] => []
  | c :: rest =>
      match rest with
      | [] => if c =? 47 then [] else [c]
      | _ :: _ => c :: replace_trailing_slash rest
      end
  end.

(** [a || b] on optional strings, numbers and functions. *)
Definition or_string (a : option jsstring) (b : jsstring) : jsstring :=
  match a with
  | Some s => if truthy_string s then s else b
  | None => b
  end.

Definition or_number (a : option Z) (b : Z) : Z :=
  match a with
  | Some n => if n =? 0 then b else n
  | None => b
  end.

Definition or_function (a b : option fetch_function) : option fetch_function :=
  match a with
  | Some f => Some f
  | None => b
  end.

(** [!config.apiKey]. *)
Definition apiKey_missing (k : option jsstring) : bool :=
  match k with
  | Some s => negb (truthy_string s)
  | None => true
  end.

Definition API_key_is_required : sdk_error :=
  WdkIndexerError (lit "API key is required").

Definition fetch_is_not_available : sdk_error :=
  WdkIndexerError (lit "fetch is not available. Please provide a custom fetch implementation or use Node.js 18+.").

(** [new WdkIndexerClient(config)], in a realm whose [globalThis.fetch] is
    [globalThis_fetch]. *)
Definition constructor (globalThis_fetch : option fetch_function)
    (config : WdkIndexerConfig) : completion WdkIndexerClient :=
  if apiKey_missing (config_apiKey config) then Throw (ThrowSdk API_key_is_required)
  else
    let this_apiKey :=
      match config_apiKey config with Some key => key | None => [] end in
    let this_baseUrl :=
      replace_trailing_slash
        (or_string (config_baseUrl config) (lit "https://wdk-api.tether.io")) in
    let this_timeout := or_number (config_timeout config) 30000 in
    match or_function (config_fetch config) globalThis_fetch with
    | None => Throw (ThrowSdk fetch_is_not_available)
    | Some f => Normal (mkClient this_apiKey this_baseUrl this_timeout f)
    end.

Definition createClient := constructor.

(** ** The request executor (index.js lines 171-232) *)

Inductive http_method : Type := GET | POST.

(** A query value: [string | number | undefined]. *)
Inductive query_value : Type :=
  | QUndefined
  | QNumber (n : Z)
  | QString (s : jsstring).

Definition is_undefined (v : query_value) : bool :=
  match v with
  | QUndefined => true
  | _ => false
  end.

(** [String(value)]. *)
Definition String_ (v : query_value) : jsstring :=
  match v with
  | QUndefined => lit "undefined"
  | QNumber n => Number_toString n
  | QString s => s
  end.

(** The [options] argument of [_request]; [request_query] lists
    [Object.entries(options.query)] in property order. *)
Record request_options : Type := mkOptions {
  request_query : option (list (jsstring * query_value));
  request_body : option value
}.

(** The text [JSON.stringify] gives for a value, kept symbolic. *)
Inductive json_text : Type :=
  | JSON_stringify (v : value).

Record RequestInit : Type := mkInit {
  init_method : http_method;
  init_headers : list (jsstring * jsstring);
  init_body : option json_text
}.

(** The body of the [for ... of Object.entries(options.query)] loop. *)
Definition append_entry (params : URLSearchParams) (entry : jsstring * query_value)
  : URLSearchParams :=
  let (key, val) := entry in
  if negb (is_undefined val) then append params key (String_ val) else params.

(** Lines 172-186: the URL handed to the transport. *)
Definition request_url (this : WdkIndexerClient) (path : jsstring)
    (options : option request_options) : jsstring :=
  let url := baseUrl this ++ path in
  match match options with Some o => request_query o | None => None end with
  | Some query =>
      let params := fold_left append_entry query new_URLSearchParams in
      let queryString := URLSearchParams_toString params in
      if truthy_string queryString then url ++ lit "?" ++ queryString else url
  | None => url
  end.

(** [options?.body ? JSON.stringify(options.body) : undefined]. *)
Definition request_payload (options : option request_options) : option json_text :=
  match match options with Some o => request_body o | None => None end with
  | Some b => if ToBoolean b then Some (JSON_stringify b) else None
  | None => None
  end.

Definition request_init (this : WdkIndexerClient) (method : http_method)
    (options : option request_options) : RequestInit :=
  mkInit method
         [(lit "x-api-key", apiKey this);
          (lit "Content-Type", lit "application/json")]
         (request_payload options).

(** What the transport resolves to: [ok], [status], [statusText]; the body
    is read later, by [response.json()]. *)
Record Response : Type := mkResponse {
  ok : bool;
  status : Z;
  statusText : jsstring
}.

Inductive settlement (A : Type) : Type :=
  | Fulfilled (a : A)
  | Rejected (t : thrown).
Arguments Fulfilled {A} a.
Arguments Rejected {A} t.

(** How a call of a client method ends. *)
Inductive outcome : Type :=
  | Returned (data : value)
  | Raised (t : thrown).

(** Lines 206-217: the statements after [await response.json()]. *)
Definition after_json (response : Response) (data : value) : completion value :=
  if negb (ok response) then
    matches <- isApiError data ;;
    if matches then
      e <- new_WdkIndexerApiError data ;; Throw (ThrowSdk e)
    else
      e <- new_WdkIndexerApiError
             (VObject [(lit "error", VString (lit "UnknownError"));
                       (lit "message",
                        VString (lit "HTTP " ++ Number_toString (status response)
                                 ++ lit ": " ++ statusText response));
                       (lit "status", VNumber (status response))]) ;;
      Throw (ThrowSdk e)
  else Normal data.

(** Lines 218-228: the [catch] clause; it always throws. *)
Definition catch_clause (this_timeout : Z) (error : thrown) : thrown :=
  match error with
  | ThrowSdk _ => error
  | ThrowError e =>
      if jsstring_eqb (err_name e) (lit "AbortError")
      then ThrowSdk (new_WdkIndexerTimeoutError this_timeout)
      else ThrowSdk (new_WdkIndexerNetworkError (err_message e) (Some e))
  | ThrowValue _ =>
      ThrowSdk (new_WdkIndexerNetworkError (lit "An unknown error occurred") None)
  end.

(** The await point an in-flight request is suspended at. *)
Inductive stage : Type :=
  | AwaitingFetch
  | AwaitingJson (response : Response)
  | Settled (result : outcome).

(** An in-flight call of [_request]: the arguments the transport was called
    with, the abort signal it was given, the timeout timer, and the stage. *)
Record request_state : Type := mkState {
  call_url : jsstring;
  call_init : RequestInit;
  this_timeout : Z;
  signal_aborted : bool;
  timer_pending : bool;
  timer_cleared : bool;
  current : stage
}.

(** What the environment can do to an in-flight request: the timer comes
    due, the promise of the transport call settles, the promise of
    [response.json()] settles.  A call that throws before returning a
    promise is a rejection. *)
Inductive event : Type :=
  | TimerFires
  | FetchSettles (r : settlement Response)
  | JsonSettles (r : settlement value).

(** Leaving the [try] statement: the [finally] block clears the timer. *)
Definition finish (s : request_state) (result : outcome) : request_state :=
  mkState (call_url s) (call_init s) (this_timeout s)
          (signal_aborted s) false true (Settled result).

Definition suspend (s : request_state) (next : stage) : request_state :=
  mkState (call_url s) (call_init s) (this_timeout s)
          (signal_aborted s) (timer_pending s) (timer_cleared s) next.

(** The timer callback [() => controller.abort()]. *)
Definition fire (s : request_state) : request_state :=
  mkState (call_url s) (call_init s) (this_timeout s)
          true false (timer_cleared s) (current s).

Definition try_result (s : request_state) (c : completion value) : outcome :=
  match c with
  | Normal data => Returned data
  | Throw error => Raised (catch_clause (this_timeout s) error)
  end.

Definition step (s : request_state) (ev : event) : request_state :=
  match ev, current s with
  | TimerFires, _ => if timer_pending s then fire s else s
  | FetchSettles (Fulfilled response), AwaitingFetch =>
      suspend s (AwaitingJson response)
  | FetchSettles (Rejected error), AwaitingFetch =>
      finish s (try_result s (Throw error))
  | JsonSettles (Fulfilled data), AwaitingJson response =>
      finish s (try_result s (after_json response data))
  | JsonSettles (Rejected error), AwaitingJson response =>
      finish s (try_result s (Throw error))
  | _, _ => s
  end.

Definition run (s : request_state) (evs : list event) : request_state :=
  fold_left step evs s.

(** [this._request(method, path, options)] up to its first await: the URL
    and headers are built, the timer is armed, the transport is called. *)
Definition _request (this : WdkIndexerClient) (method : http_method)
    (path : jsstring) (options : option request_options) : request_state :=
  mkState (request_url this path options) (request_init this method options)
          (timeout this) false true false AwaitingFetch.

(** ** Public operations (index.js lines 247-359) *)

Definition health (this : WdkIndexerClient) : completion request_state :=
  Normal (_request this GET (lit "/api/v1/health") None).

Record GetTokenTransfersOptions : Type := mkTransfersOptions {
  limit : option Z;
  fromTs : option Z;
  toTs : option Z
}.

(** [options?.field]. *)
Definition optional_field (options : option GetTokenTransfersOptions)
    (field : GetTokenTransfersOptions -> option Z) : query_value :=
  match options with
  | Some o => match field o with Some n => QNumber n | None => QUndefined end
  | None => QUndefined
  end.

Definition address_path (blockchain token encoded suffix : jsstring) : jsstring :=
  lit "/api/v1/" ++ blockchain ++ lit "/" ++ token ++ lit "/" ++ encoded ++ suffix.

Definition getTokenTransfers (this : WdkIndexerClient)
    (blockchain token address : jsstring)
    (options : option GetTokenTransfersOptions) : completion request_state :=
  encoded <- encodeURIComponent address ;;
  Normal (_request this GET
            (address_path blockchain token encoded (lit "/token-transfers"))
            (Some (mkOptions
                     (Some [(lit "limit", optional_field options limit);
                            (lit "fromTs", optional_field options fromTs);
                            (lit "toTs", optional_field options toTs)])
                     None))).

Definition getBatchTokenTransfers (this : WdkIndexerClient)
    (requests : list value) : completion request_state :=
  Normal (_request this POST (lit "/api/v1/batch/token-transfers")
            (Some (mkOptions None (Some (VArray requests))))).

Definition getTokenBalance (this : WdkIndexerClient)
    (blockchain token address : jsstring) : completion request_state :=
  encoded <- encodeURIComponent address ;;
  Normal (_request this GET
            (address_path blockchain token encoded (lit "/token-balances"))
            None).

Definition getBatchTokenBalances (this : WdkIndexerClient)
    (requests : list value) : completion request_state :=
  Normal (_request this POST (lit "/api/v1/batch/token-balances")
            (Some (mkOptions None (Some (VArray requests))))).

(** The result a caller awaiting the operation observes once the environment
    has delivered [evs]: [None] while the promise is still pending.  An
    exception thrown before [_request] is called rejects the promise at once. *)
Definition observe (call : completion request_state) (evs : list event)
  : option outcome :=
  match call with
  | Throw error => Some (Raised error)
  | Normal s =>
      match current (run s evs) with
      | Settled result => Some result
      | _ => None
      end
  end.

(** ** Fixtures of the repository's tests (tests/client.test.js) *)

Module Tests.

Definition mockFetch : fetch_function := FetchFunction 0.

Definition test_config : WdkIndexerConfig :=
  mkConfig (Some (lit "test-key")) None None (Some mockFetch).

Definition client : WdkIndexerClient :=
  mkClient (lit "test-key") (lit "https://wdk-api.tether.io") 30000 mockFetch.

Definition health_request : request_state :=
  _request client GET (lit "/api/v1/health") None.

Definition unauthorized_response : Response :=
  mkResponse false 401 (lit "Unauthorized").

Definition ok_response : Response := mkResponse true 200 (lit "OK").

Definition unauthorized : value :=
  VObject [(lit "error", VString (lit "Unauthorized"));
           (lit "message", VString (lit "Invalid API key"));
           (lit "status", VNumber 401)].

Definition connection_refused : JsError :=
  mkJsError (lit "Error") (lit "Connection refused").

Definition aborted : JsError :=
  mkJsError (lit "AbortError") (lit "Aborted").

Definition transfers_success : value :=
  VObject [(lit "transfers", VArray [VObject [(lit "amount", VString (lit "100"))]])].

Definition address_not_found : value :=
  VObject [(lit "error", VString (lit "NotFound"));
           (lit "message", VString (lit "Address not found"));
           (lit "status", VNumber 404)].

End Tests.

(** * Vocabulary of the statements *)

(** ** Strings *)


Definition is_digit (c : Z) : bool := (48 <=? c) && (c <=? 57).

(** ** Classifiers *)

(** The payload shape in the specification's words: a non-null object
    containing all three keys [error], [message], [status]. *)
Definition is_ApiErrorPayload (v : value) : bool :=
  match v with
  | VObject props =>
      has_own (lit "error") props && has_own (lit "message") props
      && has_own (lit "status") props
  | _ => false
  end.

(** The three documented response shapes. *)
Definition transfers_item (transfers : list value) : value :=
  VObject [(lit "transfers", VArray transfers)].

Definition balance_item (tokenBalance : value) : value :=
  VObject [(lit "tokenBalance", tokenBalance)].

Definition error_item (error message status : value) : value :=
  VObject [(lit "error", error); (lit "message", message); (lit "status", status)].

(** The answers of [isApiError], [isTokenTransfersResponse] and
    [isTokenBalanceResponse], in that order. *)
Definition classify (v : value) : completion bool * completion bool * completion bool :=
  (isApiError v, isTokenTransfersResponse v, isTokenBalanceResponse v).

Definition is_object (v : value) : bool :=
  match v with
  | VArray _ | VObject _ => true
  | _ => false
  end.

Definition throws_TypeError {A : Type} (c : completion A) : bool :=
  match c with
  | Throw (ThrowError e) => jsstring_eqb (err_name e) (lit "TypeError")
  | _ => false
  end.

(** ** Error kinds *)

Definition is_configuration_error (t : thrown) : bool :=
  match t with
  | ThrowSdk (WdkIndexerError _) => true
  | _ => false
  end.

Definition is_ApiError (t : thrown) : bool :=
  match t with
  | ThrowSdk (WdkIndexerApiError _ _ _) => true
  | _ => false
  end.

Definition is_TimeoutError (t : thrown) : bool :=
  match t with
  | ThrowSdk (WdkIndexerTimeoutError _) => true
  | _ => false
  end.

Definition is_NetworkError (t : thrown) : bool :=
  match t with
  | ThrowSdk (WdkIndexerNetworkError _ _) => true
  | _ => false
  end.

(** ** The executor *)

(** Case analysis on one transition of [step]. *)
Ltac step_cases s ev :=
  unfold step;
  destruct ev as [|[?response|?error]|[?data|?error]];
  destruct (current s) eqn:?Hstage;
  try match goal with
      | |- context [if timer_pending s then _ else _] =>
          destruct (timer_pending s) eqn:?Hpending
      end;
  simpl.

(** [finally]: a settled request has had its timer cleared. *)
Definition timer_released (s : request_state) : Prop :=
  forall result, current s = Settled result ->
                 timer_cleared s = true /\ timer_pending s = false.

Definition raises_only_sdk_errors (s : request_state) : Prop :=
  forall t, current s = Settled (Raised t) -> instanceof_WdkIndexerError t = true.

(** ** Induction on values *)

Section ValueInduction.

Variable P : value -> Prop.
Hypothesis P_undefined : P VUndefined.
Hypothesis P_null : P VNull.
Hypothesis P_bool : forall b, P (VBool b).
Hypothesis P_number : forall n, P (VNumber n).
Hypothesis P_string : forall s, P (VString s).
Hypothesis P_array : forall elements, Forall P elements -> P (VArray elements).
Hypothesis P_object :
  forall props, Forall (fun kv => P (snd kv)) props -> P (VObject props).

(** Induction on a value that reaches the elements of arrays and the
    property values of objects. *)
Fixpoint value_nested_ind (v : value) : P v :=
  match v with
  | VUndefined => P_undefined
  | VNull => P_null
  | VBool b => P_bool b
  | VNumber n => P_number n
  | VString s => P_string s
  | VArray elements =>
      P_array elements
        ((fix each (l : list value) : Forall P l :=
            match l with
            | [] => Forall_nil P
            | x :: rest => Forall_cons x (value_nested_ind x) (each rest)
            end) elements)
  | VObject props =>
      P_object props
        ((fix each (l : list (jsstring * value))
            : Forall (fun kv => P (snd kv)) l :=
            match l with
            | [] => Forall_nil _
            | kv :: rest =>
                Forall_cons kv (value_nested_ind (snd kv)) (each rest)
            end) props)
  end.

End ValueInduction.

(** The transport itself rejects with a base-class [WdkIndexerError]. *)
Definition rejects_with_configuration_error (ev : event) : bool :=
  match ev with
  | FetchSettles (Rejected t) | JsonSettles (Rejected t) => is_configuration_error t
  | _ => false
  end.

Definition raises_no_configuration_error (s : request_state) : Prop :=
  forall t, current s = Settled (Raised t) -> is_configuration_error t = false.

(** ** The public operations, as one type *)

Inductive operation : Type :=
  | Health
  | GetTokenTransfers (blockchain token address : jsstring)
                      (options : option GetTokenTransfersOptions)
  | GetBatchTokenTransfers (requests : list value)
  | GetTokenBalance (blockchain token address : jsstring)
  | GetBatchTokenBalances (requests : list value).

Definition invoke (this : WdkIndexerClient) (op : operation) : completion request_state :=
  match op with
  | Health => health this
  | GetTokenTransfers blockchain token address options =>
      getTokenTransfers this blockchain token address options
  | GetBatchTokenTransfers requests => getBatchTokenTransfers this requests
  | GetTokenBalance blockchain token address =>
      getTokenBalance this blockchain token address
  | GetBatchTokenBalances requests => getBatchTokenBalances this requests
  end.

(** The address an operation encodes into its path, if it takes one. *)
Definition address_of (op : operation) : option jsstring :=
  match op with
  | GetTokenTransfers _ _ address _ | GetTokenBalance _ _ address => Some address
  | _ => None
  end.

(** ** HTTP error statuses *)

(** [data.key] on a payload. *)
Definition payload_field (key : jsstring) (data : value) : value :=
  match data with
  | VObject props => match lookup key props with Some v => v | None => VUndefined end
  | _ => VUndefined
  end.

Definition synthesized_message (response : Response) : jsstring :=
  lit "HTTP " ++ Number_toString (status response) ++ lit ": " ++ statusText response.

Definition server_error_response : Response :=
  mkResponse false 500 (lit "Internal Server Error").

Definition unshaped_body : value :=
  VObject [(lit "detail", VString (lit "unexpected failure"))].

Definition unexpected_token : JsError :=
  mkJsError (lit "SyntaxError") (lit "Unexpected token < in JSON at position 0").

Definition unconvertible_payload : value :=
  VObject [(lit "error", VString (lit "BadRequest"));
           (lit "message", VObject [(lit "toString", VNumber 1)]);
           (lit "status", VNumber 400)].

Definition cannot_convert : JsError :=
  mkJsError (lit "TypeError") (lit "Cannot convert object to primitive value").

(** ** Failures of the transport *)

Definition is_pending (st : stage) : bool :=
  match st with
  | Settled _ => false
  | _ => true
  end.

(** The rejection of the promise a request at stage [st] is awaiting: the
    transport call itself, or the reading of the body. *)
Definition rejection (st : stage) (error : thrown) : event :=
  match st with
  | AwaitingJson _ => JsonSettles (Rejected error)
  | _ => FetchSettles (Rejected error)
  end.

Definition unknown_error_occurred : sdk_error :=
  WdkIndexerNetworkError (lit "An unknown error occurred") None.

Definition thrown_object : value :=
  VObject [(lit "message", VString (lit "Connection refused"))].

(** ** The timeout *)

Definition timed_out (ms : Z) : outcome :=
  Raised (ThrowSdk (WdkIndexerTimeoutError
                      (lit "Request timed out after " ++ Number_toString ms ++ lit "ms"))).

(** ** Batch operations *)

(** The stage an operation's request has reached after [evs]. *)
Definition stage_after (call : completion request_state) (evs : list event)
  : option stage :=
  match call with
  | Normal s => Some (current (run s evs))
  | Throw _ => None
  end.

Definition transfers_then_error : value :=
  VArray [transfers_item [VObject [(lit "amount", VString (lit "100"))]];
          error_item (VString (lit "NotFound")) (VString (lit "Address not found"))
                     (VNumber 404)].

Definition two_requests : list value :=
  [VObject [(lit "blockchain", VString (lit "ethereum"));
            (lit "token", VString (lit "usdt"));
            (lit "address", VString (lit "0x1234"))];
   VObject [(lit "blockchain", VString (lit "tron"));
            (lit "token", VString (lit "usdt"));
            (lit "address", VString (lit "T1234"))]].

(** ** Errors that are not SDK errors *)

Definition lone_surrogate : jsstring := [0xD800].

(** ** Percent-encoding of the address *)

(** A string without unpaired surrogates. *)
Fixpoint well_formed (s : jsstring) : bool :=
  match s with
  | [] => true
  | C :: rest =>
      if is_trailing_surrogate C then false
      else if is_leading_surrogate C then
        match rest with
        | [] => false
        | second :: rest' => is_trailing_surrogate second && well_formed rest'
        end
      else well_formed rest
  end.

(** What an encoded component is made of: unescaped characters and [%]. *)
Definition path_safe (c : Z) : bool := uri_unescaped c || (c =? 37).

Definition slash : Z := 47.

(** ** The query string *)

(** The query in the specification's words: the entries whose value is not
    [undefined], each value stringified. *)
Definition defined_entries (query : list (jsstring * query_value))
  : list (jsstring * query_value) :=
  filter (fun entry => negb (is_undefined (snd entry))) query.

Definition stringified_entries (query : list (jsstring * query_value))
  : URLSearchParams :=
  map (fun entry => (fst entry, String_ (snd entry))) (defined_entries query).

(** Nothing is appended when no entry remains; otherwise [?] and the
    serialized entries. *)
Definition query_suffix (params : URLSearchParams) : jsstring :=
  match params with
  | [] => []
  | _ :: _ => lit "?" ++ URLSearchParams_toString params
  end.

(** *** Substrings of a URL *)


Definition question_mark : Z := 63.
Definition equals_sign : Z := 61.

(** * Vocabulary of the further properties *)

(** ** The query of [getTokenTransfers] *)

(** The entry of an option that is set. *)
Definition option_entry (key : jsstring) (field : option Z) : URLSearchParams :=
  match field with
  | Some n => [(key, Number_toString n)]
  | None => []
  end.

(** The options that are set, in the order [limit], [fromTs], [toTs]. *)
Definition set_options (options : option GetTokenTransfersOptions) : URLSearchParams :=
  match options with
  | Some o =>
      option_entry (lit "limit") (limit o) ++ option_entry (lit "fromTs") (fromTs o)
      ++ option_entry (lit "toTs") (toTs o)
  | None => []
  end.

(** The options that are set are safe integers, which [String] writes as
    decimal numerals. *)
Definition safe_field (field : option Z) : bool :=
  match field with
  | Some n => isSafeInteger n
  | None => true
  end.

Definition safe_options (options : option GetTokenTransfersOptions) : bool :=
  match options with
  | Some o => safe_field (limit o) && safe_field (fromTs o) && safe_field (toTs o)
  | None => true
  end.

(** What a serialized query is made of: the characters the form encoding
    keeps, [+] and [%]. *)
Definition query_safe (c : Z) : bool := form_safe c || (c =? 43) || (c =? 37).

Definition ampersand : Z := 38.

(** ** Events *)

Definition is_fetch_settlement (ev : event) : bool :=
  match ev with
  | FetchSettles _ => true
  | _ => false
  end.

Definition is_json_settlement (ev : event) : bool :=
  match ev with
  | JsonSettles _ => true
  | _ => false
  end.

(** The transport itself rejects with an instance of [WdkIndexerError]. *)
Definition rejects_with_sdk_error (ev : event) : bool :=
  match ev with
  | FetchSettles (Rejected t) | JsonSettles (Rejected t) => instanceof_WdkIndexerError t
  | _ => false
  end.

(** ** Code units *)

(** A code unit is a 16-bit number. *)
Definition is_code_unit (c : Z) : bool := (0 <=? c) && (c <? 65536).

(** ** Plain queries *)

(** [name=value] pairs joined by [&], written without any encoding. *)
Fixpoint plain_pairs (params : URLSearchParams) : jsstring :=
  match params with
  | [] => []
  | (name, val) :: rest =>
      name ++ lit "=" ++ val ++
      match rest with
      | [] => []
      | _ :: _ => lit "&" ++ plain_pairs rest
      end
  end.

Definition plain_query (params : URLSearchParams) : jsstring :=
  match params with
  | [] => []
  | _ :: _ => lit "?" ++ plain_pairs params
  end.

(** The path prefix of the two address operations. *)
Definition address_url (this : WdkIndexerClient)
    (blockchain token segment resource : jsstring) : jsstring :=
  baseUrl this ++ lit "/api/v1/" ++ blockchain ++ lit "/" ++ token ++ lit "/"
  ++ segment ++ resource.

(** * Properties *)

(** ** Worked examples *)

Example isApiError_payload :
  isApiError (VObject [(lit "error", VString (lit "NotFound"));
                       (lit "message", VString (lit "Not found"));
                       (lit "status", VNumber 404)]) = Normal true.
Proof. reflexivity. Qed.

Example isApiError_partial :
  isApiError (VObject [(lit "error", VString (lit "test"))]) = Normal false.
Proof. reflexivity. Qed.

Example Number_toString_401 : Number_toString 401 = lit "401".
Proof. reflexivity. Qed.

Example Number_toString_0 : Number_toString 0 = lit "0".
Proof. reflexivity. Qed.

Example encodeURIComponent_slash :
  encodeURIComponent (lit "0x1234/5678") = Normal (lit "0x1234%2F5678").
Proof. reflexivity. Qed.

Example encodeURIComponent_euro :
  encodeURIComponent [0x20AC] = Normal (lit "%E2%82%AC").
Proof. reflexivity. Qed.

Example encodeURIComponent_pair :
  encodeURIComponent [0xD83D; 0xDE00] = Normal (lit "%F0%9F%98%80").
Proof. reflexivity. Qed.

Example encodeURIComponent_lone :
  encodeURIComponent [0xD800] = Throw URI_malformed.
Proof. reflexivity. Qed.

Example URLSearchParams_toString_two :
  URLSearchParams_toString
    (append (append new_URLSearchParams (lit "limit") (lit "10"))
            (lit "a b") (lit "x&y"))
  = lit "limit=10&a+b=x%26y".
Proof. reflexivity. Qed.

Example ToString_array :
  ToString (VArray [VNumber 1; VNull; VString (lit "a")]) = Normal (lit "1,,a").
Proof. reflexivity. Qed.

(** ** The repository's tests, replayed on the model (tests/client.test.js) *)

Example test_constructor_requires_apiKey :
  constructor None (mkConfig None None None None)
    = Throw (ThrowSdk API_key_is_required)
  /\ constructor None (mkConfig (Some []) None None None)
    = Throw (ThrowSdk API_key_is_required).
Proof. split; reflexivity. Qed.

Example test_BLOCKCHAINS_contains_expected :
  mem (lit "ethereum") BLOCKCHAINS = true /\ mem (lit "tron") BLOCKCHAINS = true
  /\ mem (lit "ton") BLOCKCHAINS = true /\ mem (lit "bitcoin") BLOCKCHAINS = true
  /\ mem (lit "polygon") BLOCKCHAINS = true /\ mem (lit "arbitrum") BLOCKCHAINS = true
  /\ List.length BLOCKCHAINS = 9%nat.
Proof. repeat split; reflexivity. Qed.

Example test_TOKENS_contains_expected :
  mem (lit "usdt") TOKENS = true /\ mem (lit "xaut") TOKENS = true
  /\ mem (lit "btc") TOKENS = true /\ List.length TOKENS = 3%nat.
Proof. repeat split; reflexivity. Qed.

Example test_constructor_sets_defaults :
  constructor None Tests.test_config = Normal Tests.client.
Proof. reflexivity. Qed.

Example test_constructor_accepts_custom_config :
  constructor None
    (mkConfig (Some (lit "test-key")) (Some (lit "https://custom.example.com/"))
              (Some 60000) (Some Tests.mockFetch))
  = Normal (mkClient (lit "test-key") (lit "https://custom.example.com")
                     60000 Tests.mockFetch).
Proof. reflexivity. Qed.

Example test_handles_API_error_response :
  observe (health Tests.client)
    [FetchSettles (Fulfilled Tests.unauthorized_response);
     JsonSettles (Fulfilled Tests.unauthorized)]
  = Some (Raised (ThrowSdk (WdkIndexerApiError (lit "Invalid API key")
                              (VNumber 401) (VString (lit "Unauthorized"))))).
Proof. reflexivity. Qed.

Example test_handles_network_error :
  observe (health Tests.client)
    [FetchSettles (Rejected (ThrowError Tests.connection_refused))]
  = Some (Raised (ThrowSdk (WdkIndexerNetworkError (lit "Connection refused")
                              (Some Tests.connection_refused)))).
Proof. reflexivity. Qed.

Example test_handles_timeout :
  observe (health Tests.client) [FetchSettles (Rejected (ThrowError Tests.aborted))]
  = Some (Raised (ThrowSdk (WdkIndexerTimeoutError
                              (lit "Request timed out after 30000ms")))).
Proof. reflexivity. Qed.

Example test_encodes_address_in_URL :
  match getTokenBalance Tests.client (lit "ethereum") (lit "usdt")
          (lit "0x1234/5678") with
  | Normal s => includes (call_url s) (lit "0x1234%2F5678")
  | Throw _ => false
  end = true.
Proof. reflexivity. Qed.

Example test_getTokenTransfers_url :
  match getTokenTransfers Tests.client (lit "ethereum") (lit "usdt") (lit "0x1234")
          (Some (mkTransfersOptions (Some 10) (Some 1000) None)) with
  | Normal s => call_url s
  | Throw _ => []
  end
  = lit "https://wdk-api.tether.io/api/v1/ethereum/usdt/0x1234/token-transfers?limit=10&fromTs=1000".
Proof. reflexivity. Qed.

Example test_getBatchTokenTransfers_with_mock_fetch :
  observe (getBatchTokenTransfers Tests.client [VObject []; VObject []])
    [FetchSettles (Fulfilled Tests.ok_response);
     JsonSettles (Fulfilled (VArray [Tests.transfers_success; Tests.address_not_found]))]
  = Some (Returned (VArray [Tests.transfers_success; Tests.address_not_found]))
  /\ isTokenTransfersResponse Tests.transfers_success = Normal true
  /\ isApiError Tests.address_not_found = Normal true.
Proof. repeat split; reflexivity. Qed.

(** ** Strings *)

Lemma jsstring_eqb_eq (a b : jsstring) : jsstring_eqb a b = true <-> a = b.
Proof.
  revert b; induction a as [|x a IH]; intros [|y b]; simpl; split;
    try congruence; try reflexivity.
  - intros H. apply andb_true_iff in H as [Hx Ha].
    apply Z.eqb_eq in Hx. apply IH in Ha. congruence.
  - intros H. injection H as -> ->.
    rewrite Z.eqb_refl. simpl. apply IH. reflexivity.
Qed.

Lemma jsstring_eqb_refl (a : jsstring) : jsstring_eqb a a = true.
Proof. apply jsstring_eqb_eq. reflexivity. Qed.


Lemma includes_nil (hay : jsstring) : includes hay [] = true.
Proof. destruct hay; reflexivity. Qed.

Lemma includes_app_r (a b needle : jsstring) :
  includes b needle = true -> includes (a ++ b) needle = true.
Proof.
  intros H. induction a as [|x a IH]; simpl.
  - exact H.
  - rewrite IH. apply orb_true_r.
Qed.

Lemma includes_app_l (a b needle : jsstring) :
  includes a needle = true -> includes (a ++ b) needle = true.
Proof.
  assert (Hs : forall h n, startsWith h n = true -> startsWith (h ++ b) n = true).
  { intros h n; revert h; induction n as [|y n IH]; intros [|x h]; simpl;
      try congruence; try reflexivity.
    intros H. apply andb_true_iff in H as [-> Hn]. simpl. apply IH. exact Hn. }
  induction a as [|x a IH]; simpl; intros H.
  - destruct needle; simpl in *; [apply includes_nil | discriminate].
  - apply orb_true_iff in H as [H|H].
    + change (x :: a ++ b) with ((x :: a) ++ b). rewrite (Hs _ _ H). reflexivity.
    + rewrite (IH H). apply orb_true_r.
Qed.






(** *** Decimal numerals *)

Lemma uint_digits_are_digits (d : Decimal.uint) :
  forallb is_digit (uint_digits d) = true.
Proof. induction d; simpl; auto. Qed.

Lemma Number_toString_chars (n c : Z) :
  isSafeInteger n = true ->
  In c (Number_toString n) -> c = 45 \/ is_digit c = true.
Proof.
  intros _. unfold Number_toString.
  pose proof (uint_digits_are_digits) as Hd.
  destruct (Z.to_int n) as [d|d]; simpl; intros H.
  - right. specialize (Hd d). rewrite forallb_forall in Hd. auto.
  - destruct H as [<-|H]; [left; reflexivity|].
    right. specialize (Hd d). rewrite forallb_forall in Hd. auto.
Qed.

Lemma Number_toString_of_nat (i : nat) :
  forallb is_digit (Number_toString (Z.of_nat i)) = true.
Proof.
  unfold Number_toString.
  destruct (Z.of_nat i) eqn:E; simpl.
  - reflexivity.
  - apply uint_digits_are_digits.
  - lia.
Qed.

(** ** Classifiers *)

Lemma is_index_key_numeral (key : jsstring) (len : nat) :
  forallb is_digit key = false -> is_index_key key len = false.
Proof.
  intros Hkey. unfold is_index_key.
  destruct (existsb _ (seq 0 len)) eqn:E; [|reflexivity].
  apply existsb_exists in E as (i & _ & Hi).
  apply jsstring_eqb_eq in Hi. subst key.
  rewrite Number_toString_of_nat in Hkey. discriminate.
Qed.

Lemma in_operator_array (key : jsstring) (elements : list value) :
  forallb is_digit key = false ->
  in_operator key (VArray elements)
  = Normal (mem key Array_prototype_keys || mem key Object_prototype_keys).
Proof.
  intros Hkey. unfold in_operator.
  rewrite (is_index_key_numeral key _ Hkey). reflexivity.
Qed.

Lemma isApiError_spec (v : value) : isApiError v = Normal (is_ApiErrorPayload v).
Proof.
  destruct v as [| |b|n|s|elements|props]; try reflexivity.
  - unfold isApiError.
    rewrite (in_operator_array (lit "error") elements eq_refl).
    reflexivity.
  - unfold isApiError, is_ApiErrorPayload, in_operator.
    destruct (has_own (lit "error") props), (has_own (lit "message") props),
      (has_own (lit "status") props); reflexivity.
Qed.

(** C6: over the three documented shapes the classifiers are mutually
    exclusive and exhaustive: a transfers item is accepted by
    [isTokenTransfersResponse] only, a balance item by
    [isTokenBalanceResponse] only, an error payload by [isApiError] only; and
    [isApiError v] is true exactly when [v] is a non-null object containing
    the keys [error], [message] and [status]. *)
Theorem C6_classifiers_partition_shapes :
  (forall transfers,
      classify (transfers_item transfers) = (Normal false, Normal true, Normal false))
  /\ (forall tokenBalance,
      classify (balance_item tokenBalance) = (Normal false, Normal false, Normal true))
  /\ (forall error message status,
      classify (error_item error message status)
      = (Normal true, Normal false, Normal false))
  /\ (forall v, isApiError v = Normal (is_ApiErrorPayload v)).
Proof.
  repeat split; try reflexivity.
  apply isApiError_spec.
Qed.

(** C10: of the three classifiers only [isApiError] is total.  It returns a
    boolean on every value, and [false] on [null], [undefined] and every
    other non-object; [isTokenTransfersResponse] and [isTokenBalanceResponse]
    throw a [TypeError] on every non-object value, because they apply [in]
    without testing that the operand is an object. *)
Theorem C10_only_isApiError_is_total (v : value) :
  (exists b, isApiError v = Normal b)
  /\ (is_object v = false ->
      isApiError v = Normal false
      /\ throws_TypeError (isTokenTransfersResponse v) = true
      /\ throws_TypeError (isTokenBalanceResponse v) = true).
Proof.
  split.
  - exists (is_ApiErrorPayload v). apply isApiError_spec.
  - destruct v; simpl; intros H; try discriminate; repeat split; reflexivity.
Qed.

Lemma C10_witness_null :
  is_object VNull = false
  /\ isApiError VNull = Normal false
  /\ throws_TypeError (isTokenTransfersResponse VNull) = true
  /\ throws_TypeError (isTokenBalanceResponse VNull) = true.
Proof.
  split; [reflexivity|].
  apply (proj2 (C10_only_isApiError_is_total VNull)). reflexivity.
Defined.

(** ** The executor *)

Lemma run_app (s : request_state) (evs1 evs2 : list event) :
  run s (evs1 ++ evs2) = run (run s evs1) evs2.
Proof. apply fold_left_app. Qed.

Lemma run_invariant (P : request_state -> Prop) :
  (forall s ev, P s -> P (step s ev)) ->
  forall evs s, P s -> P (run s evs).
Proof.
  intros Hstep evs. induction evs as [|ev evs IH]; intros s Hs; simpl.
  - exact Hs.
  - apply IH, Hstep, Hs.
Qed.

Lemma step_this_timeout (s : request_state) (ev : event) :
  this_timeout (step s ev) = this_timeout s.
Proof. step_cases s ev; reflexivity. Qed.

Lemma run_this_timeout (s : request_state) (evs : list event) :
  this_timeout (run s evs) = this_timeout s.
Proof.
  apply (run_invariant (fun s' => this_timeout s' = this_timeout s)).
  - intros s' ev H. rewrite step_this_timeout. exact H.
  - reflexivity.
Qed.

Lemma step_call (s : request_state) (ev : event) :
  call_url (step s ev) = call_url s /\ call_init (step s ev) = call_init s.
Proof. step_cases s ev; split; reflexivity. Qed.

Lemma step_timer_released (s : request_state) (ev : event) :
  timer_released s -> timer_released (step s ev).
Proof.
  unfold timer_released. intros H.
  step_cases s ev;
    intros r0 Hr; try congruence; try (split; reflexivity);
    try (destruct (H _ eq_refl) as [Hc Hq]; split; congruence).
Qed.

(** The [catch] clause only lets SDK errors out. *)
Lemma catch_clause_typed (ms : Z) (error : thrown) :
  instanceof_WdkIndexerError (catch_clause ms error) = true.
Proof.
  destruct error as [e|e|v]; simpl; try reflexivity.
  destruct (jsstring_eqb _ _); reflexivity.
Qed.

Lemma step_raises_only_sdk_errors (s : request_state) (ev : event) :
  raises_only_sdk_errors s -> raises_only_sdk_errors (step s ev).
Proof.
  unfold raises_only_sdk_errors. intros H.
  step_cases s ev;
    intros t Ht; try congruence; try (apply H; congruence).
  - injection Ht as <-. apply catch_clause_typed.
  - unfold try_result in Ht. destruct (after_json _ _); try discriminate.
    injection Ht as <-. apply catch_clause_typed.
  - injection Ht as <-. apply catch_clause_typed.
Qed.

(** Whatever the transport does, a call of [_request] that fails, fails
    with an instance of [WdkIndexerError]. *)
Lemma _request_raises_only_sdk_errors (this : WdkIndexerClient)
    (method : http_method) (path : jsstring) (options : option request_options)
    (evs : list event) (t : thrown) :
  observe (Normal (_request this method path options)) evs = Some (Raised t) ->
  instanceof_WdkIndexerError t = true.
Proof.
  unfold observe. intros H.
  assert (Hinv : raises_only_sdk_errors (run (_request this method path options) evs)).
  { apply run_invariant.
    - apply step_raises_only_sdk_errors.
    - intros t' Ht'. discriminate. }
  destruct (current (run _ evs)) eqn:E; try discriminate.
  injection H as ->. apply Hinv. exact E.
Qed.

Lemma _request_releases_timer (this : WdkIndexerClient)
    (method : http_method) (path : jsstring) (options : option request_options)
    (evs : list event) :
  timer_released (run (_request this method path options) evs).
Proof.
  apply run_invariant.
  - apply step_timer_released.
  - intros result H. discriminate.
Qed.

(** *** What the conversions can throw *)

Lemma Array_join_throws (element : value -> completion jsstring)
    (l : list value) (t : thrown) :
  Array_join element l = Throw t -> exists x, In x l /\ element x = Throw t.
Proof.
  induction l as [|x rest IH]; simpl; [discriminate|].
  destruct (element x) as [piece|t0] eqn:Ex; simpl.
  - destruct rest as [|y rest']; [discriminate|].
    destruct (Array_join element (y :: rest')) as [tail|t1] eqn:Er; simpl;
      [discriminate|].
    intros [= <-]. destruct (IH eq_refl) as (z & Hz & Ez).
    exists z. split; [right; exact Hz | exact Ez].
  - intros [= <-]. exists x. split; [left; reflexivity | exact Ex].
Qed.

Lemma ToString_throws (v : value) (t : thrown) :
  ToString v = Throw t -> instanceof_WdkIndexerError t = false.
Proof.
  revert t. induction v as [| |b|n|s|elements IH|props IH] using value_nested_ind;
    intros t; simpl; try discriminate.
  - destruct b; discriminate.
  - intros H. apply Array_join_throws in H as (x & Hx & Ex).
    rewrite Forall_forall in IH. apply (IH x Hx).
    destruct x; try discriminate; exact Ex.
  - destruct (has_own _ props); [intros [= <-]; reflexivity | discriminate].
Qed.

Lemma new_WdkIndexerApiError_throws (apiError : value) (t : thrown) :
  new_WdkIndexerApiError apiError = Throw t -> instanceof_WdkIndexerError t = false.
Proof.
  unfold new_WdkIndexerApiError.
  destruct apiError as [| |b|n|s|elements|props]; simpl;
    try (intros [= <-]; reflexivity); try discriminate.
  destruct (lookup (lit "message") props) as [m|]; simpl; [|discriminate].
  destruct (Error_message m) as [message|t0] eqn:Em; simpl; [discriminate|].
  intros [= <-]. destruct m; unfold Error_message in Em; try discriminate;
    exact (ToString_throws _ _ Em).
Qed.

Lemma isApiError_never_throws (v : value) (t : thrown) : isApiError v <> Throw t.
Proof. rewrite isApiError_spec. discriminate. Qed.

(** [after_json] throws an [WdkIndexerApiError], or the [TypeError] of a
    payload whose message has no string conversion. *)
Lemma after_json_throws (response : Response) (data : value) (t : thrown) :
  after_json response data = Throw t -> is_configuration_error t = false.
Proof.
  unfold after_json. destruct (ok response); simpl; [discriminate|].
  rewrite isApiError_spec. simpl.
  destruct (is_ApiErrorPayload data).
  - destruct (new_WdkIndexerApiError data) as [e|t0] eqn:E; simpl.
    + intros [= <-].
      unfold new_WdkIndexerApiError, bind in E.
      repeat match type of E with
             | match ?c with _ => _ end = _ => destruct c; try discriminate
             end.
      injection E as <-. reflexivity.
    + intros [= <-]. apply new_WdkIndexerApiError_throws in E.
      destruct t0 as [[]| |]; simpl in *; congruence.
  - intros [= <-]. reflexivity.
Qed.

Lemma catch_clause_configuration (ms : Z) (error : thrown) :
  is_configuration_error (catch_clause ms error) = is_configuration_error error.
Proof.
  destruct error as [e|e|v]; simpl; try reflexivity.
  destruct (jsstring_eqb _ _); reflexivity.
Qed.

Lemma step_raises_no_configuration_error (s : request_state) (ev : event) :
  rejects_with_configuration_error ev = false ->
  raises_no_configuration_error s ->
  raises_no_configuration_error (step s ev).
Proof.
  unfold raises_no_configuration_error. intros Hev H.
  step_cases s ev; intros t Ht; try congruence; try (apply H; congruence).
  - injection Ht as <-. rewrite catch_clause_configuration. exact Hev.
  - unfold try_result in Ht.
    destruct (after_json _ _) as [v|t0] eqn:E; try discriminate.
    injection Ht as <-. rewrite catch_clause_configuration.
    apply (after_json_throws _ _ _ E).
  - injection Ht as <-. rewrite catch_clause_configuration. exact Hev.
Qed.

Lemma run_raises_no_configuration_error (evs : list event) (s : request_state) :
  existsb rejects_with_configuration_error evs = false ->
  raises_no_configuration_error s ->
  raises_no_configuration_error (run s evs).
Proof.
  revert s. induction evs as [|ev evs IH]; intros s Hevs Hs; simpl in *.
  - exact Hs.
  - apply orb_false_iff in Hevs as [Hev Hevs].
    apply IH; [exact Hevs|].
    apply step_raises_no_configuration_error; assumption.
Qed.

(** *** The public operations *)

(** An operation that starts a request starts it with [_request]. *)
Lemma invoke_started (this : WdkIndexerClient) (op : operation) (s : request_state) :
  invoke this op = Normal s ->
  exists method path options, s = _request this method path options.
Proof.
  destruct op; simpl; unfold health, getTokenTransfers, getBatchTokenTransfers,
    getTokenBalance, getBatchTokenBalances, bind;
    try destruct (encodeURIComponent address); intros [= <-];
    do 3 eexists; reflexivity.
Qed.

(** Once an operation has called [_request], every failure it reports is an
    instance of [WdkIndexerError]. *)
Lemma started_operation_raises_only_sdk_errors (this : WdkIndexerClient)
    (op : operation) (s : request_state) (evs : list event) (t : thrown) :
  invoke this op = Normal s ->
  observe (Normal s) evs = Some (Raised t) ->
  instanceof_WdkIndexerError t = true.
Proof.
  intros Hs Ht. apply invoke_started in Hs as (method & path & options & ->).
  apply (_request_raises_only_sdk_errors _ _ _ _ _ _ Ht).
Qed.

(** ** Construction fails with the configuration error *)

(** C7: whatever the other fields are, a configuration whose [apiKey] is
    absent or the empty string makes construction fail with the
    configuration error (the base-class [WdkIndexerError], which is none of
    the API, timeout and network kinds); so does a configuration with a key
    but with no transport, neither injected nor global.  The executor never
    creates an error of that kind: an operation reports one only when the
    transport itself rejected with one. *)
Theorem C7_construction_fails_with_configuration_error
    (globalThis_fetch fetch : option fetch_function)
    (apiKey baseUrl : option jsstring) (timeout : option Z) :
  constructor globalThis_fetch (mkConfig None baseUrl timeout fetch)
    = Throw (ThrowSdk API_key_is_required)
  /\ constructor globalThis_fetch (mkConfig (Some []) baseUrl timeout fetch)
    = Throw (ThrowSdk API_key_is_required)
  /\ (forall c key,
        constructor None (mkConfig (Some (c :: key)) baseUrl timeout None)
        = Throw (ThrowSdk fetch_is_not_available))
  /\ (exists e,
        constructor None (mkConfig apiKey baseUrl timeout None) = Throw e
        /\ is_configuration_error e = true
        /\ is_ApiError e = false /\ is_TimeoutError e = false
        /\ is_NetworkError e = false)
  /\ (forall this method path options evs t,
        existsb rejects_with_configuration_error evs = false ->
        observe (Normal (_request this method path options)) evs = Some (Raised t) ->
        is_configuration_error t = false).
Proof.
  repeat split; try reflexivity.
  - destruct apiKey as [[|c key]|]; eexists; repeat split; reflexivity.
  - intros this method path options evs t Hevs Ht.
    unfold observe in Ht.
    assert (Hinv : raises_no_configuration_error
                     (run (_request this method path options) evs)).
    { apply run_raises_no_configuration_error; [exact Hevs|].
      intros t' Ht'. discriminate. }
    destruct (current (run _ evs)) eqn:E; try discriminate.
    injection Ht as ->. apply Hinv. exact E.
Qed.

Lemma C7_witness_network_failure :
  existsb rejects_with_configuration_error
    [FetchSettles (Rejected (ThrowError Tests.connection_refused))] = false
  /\ is_configuration_error
       (ThrowSdk (WdkIndexerNetworkError (lit "Connection refused")
                    (Some Tests.connection_refused))) = false.
Proof.
  split; [reflexivity|].
  apply (proj2 (proj2 (proj2 (proj2
           (C7_construction_fails_with_configuration_error None None None None None))))
           Tests.client GET (lit "/api/v1/health") None
           [FetchSettles (Rejected (ThrowError Tests.connection_refused))]);
    reflexivity.
Defined.

(** ** HTTP error statuses *)

Lemma observe_after (s0 : request_state) (evs : list event) (ev : event) :
  observe (Normal s0) (evs ++ [ev])
  = match current (step (run s0 evs) ev) with
    | Settled result => Some result
    | _ => None
    end.
Proof. unfold observe. rewrite run_app. reflexivity. Qed.

Lemma observe_body (s0 : request_state) (evs : list event)
    (response : Response) (data : value) :
  current (run s0 evs) = AwaitingJson response ->
  observe (Normal s0) (evs ++ [JsonSettles (Fulfilled data)])
  = Some (try_result (run s0 evs) (after_json response data)).
Proof.
  intros H. rewrite observe_after. unfold step. rewrite H. reflexivity.
Qed.

(** C1 (amended): when a response with a non-success status has a body that
    [response.json()] parses to [data], the method fails with an ApiError: if
    [data] has the payload shape (and its message converts to a string) the
    error carries the payload's status, error code and message; if [data]
    does not have the shape the error is synthesized from the HTTP status and
    status text with the code [UnknownError].  When the reading of the body
    is cut by the timeout, that is, rejects with an [Error] named
    [AbortError], the method fails with the TimeoutError instead. *)
Theorem C1_http_error_with_parsed_body (s0 : request_state) (evs : list event)
    (response : Response) (data : value) :
  current (run s0 evs) = AwaitingJson response ->
  ok response = false ->
  (forall message,
      is_ApiErrorPayload data = true ->
      Error_message (payload_field (lit "message") data) = Normal message ->
      observe (Normal s0) (evs ++ [JsonSettles (Fulfilled data)])
      = Some (Raised (ThrowSdk (WdkIndexerApiError message
                                  (payload_field (lit "status") data)
                                  (payload_field (lit "error") data)))))
  /\ (is_ApiErrorPayload data = false ->
      observe (Normal s0) (evs ++ [JsonSettles (Fulfilled data)])
      = Some (Raised (ThrowSdk (WdkIndexerApiError (synthesized_message response)
                                  (VNumber (status response))
                                  (VString (lit "UnknownError"))))))
  /\ (forall e,
      err_name e = lit "AbortError" ->
      observe (Normal s0) (evs ++ [JsonSettles (Rejected (ThrowError e))])
      = Some (timed_out (this_timeout s0))).
Proof.
  intros Hstage Hok. split; [|split].
  - intros message Hshape Hmessage.
    rewrite (observe_body _ _ _ _ Hstage).
    unfold after_json. rewrite Hok, isApiError_spec, Hshape. simpl.
    destruct data as [| |b|n|s|elements|props]; try discriminate.
    unfold new_WdkIndexerApiError. simpl in *. rewrite Hmessage. reflexivity.
  - intros Hshape.
    rewrite (observe_body _ _ _ _ Hstage).
    unfold after_json. rewrite Hok, isApiError_spec, Hshape. reflexivity.
  - intros e He. rewrite observe_after. unfold step. rewrite Hstage.
    simpl. rewrite run_this_timeout, He. reflexivity.
Qed.

Lemma C1_witness_unauthorized :
  current (run Tests.health_request [FetchSettles (Fulfilled Tests.unauthorized_response)])
    = AwaitingJson Tests.unauthorized_response
  /\ ok Tests.unauthorized_response = false
  /\ is_ApiErrorPayload Tests.unauthorized = true
  /\ observe (Normal Tests.health_request)
       ([FetchSettles (Fulfilled Tests.unauthorized_response)]
        ++ [JsonSettles (Fulfilled Tests.unauthorized)])
     = Some (Raised (ThrowSdk (WdkIndexerApiError (lit "Invalid API key") (VNumber 401)
                                 (VString (lit "Unauthorized")))))
  /\ is_ApiErrorPayload unshaped_body = false
  /\ observe (Normal Tests.health_request)
       ([FetchSettles (Fulfilled server_error_response)]
        ++ [JsonSettles (Fulfilled unshaped_body)])
     = Some (Raised (ThrowSdk (WdkIndexerApiError
                                 (lit "HTTP 500: Internal Server Error") (VNumber 500)
                                 (VString (lit "UnknownError")))))
  /\ err_name Tests.aborted = lit "AbortError"
  /\ observe (Normal Tests.health_request)
       ([FetchSettles (Fulfilled server_error_response)]
        ++ [JsonSettles (Rejected (ThrowError Tests.aborted))])
     = Some (timed_out 30000).
Proof.
  split; [reflexivity|]. split; [reflexivity|]. split; [reflexivity|].
  split.
  { apply (proj1 (C1_http_error_with_parsed_body Tests.health_request
                    [FetchSettles (Fulfilled Tests.unauthorized_response)]
                    Tests.unauthorized_response Tests.unauthorized eq_refl eq_refl)
                 (lit "Invalid API key")); reflexivity. }
  split; [reflexivity|].
  pose proof (C1_http_error_with_parsed_body Tests.health_request
                [FetchSettles (Fulfilled server_error_response)]
                server_error_response unshaped_body eq_refl eq_refl)
    as (_ & Hsynthesized & Haborted).
  split; [apply Hsynthesized; reflexivity|].
  split; [reflexivity|].
  apply (Haborted Tests.aborted). reflexivity.
Defined.

(** C1 as stated fails: a 502 response whose body is not JSON makes
    [response.json()] reject, and the method fails with a network error; so
    does a payload of the right shape whose message has no string conversion;
    and a body read cut by the timeout gives a timeout error. *)
Lemma C1_counterexample_unparsable_body :
  observe (health Tests.client)
    [FetchSettles (Fulfilled (mkResponse false 502 (lit "Bad Gateway")));
     JsonSettles (Rejected (ThrowError unexpected_token))]
  = Some (Raised (ThrowSdk (WdkIndexerNetworkError (err_message unexpected_token)
                              (Some unexpected_token))))
  /\ is_ApiError (ThrowSdk (WdkIndexerNetworkError (err_message unexpected_token)
                              (Some unexpected_token))) = false
  /\ is_ApiErrorPayload unconvertible_payload = true
  /\ observe (health Tests.client)
       [FetchSettles (Fulfilled (mkResponse false 400 (lit "Bad Request")));
        JsonSettles (Fulfilled unconvertible_payload)]
     = Some (Raised (ThrowSdk (WdkIndexerNetworkError (err_message cannot_convert)
                                 (Some cannot_convert))))
  /\ observe (health Tests.client)
       [FetchSettles (Fulfilled (mkResponse false 502 (lit "Bad Gateway")));
        JsonSettles (Rejected (ThrowError Tests.aborted))]
     = Some (timed_out 30000)
  /\ match timed_out 30000 with Raised t => is_ApiError t | Returned _ => true end
     = false.
Proof. repeat split; reflexivity. Qed.

(** ** Failures of the transport *)

Lemma observe_rejection (s0 : request_state) (evs : list event) (error : thrown) :
  is_pending (current (run s0 evs)) = true ->
  observe (Normal s0) (evs ++ [rejection (current (run s0 evs)) error])
  = Some (Raised (catch_clause (this_timeout s0) error)).
Proof.
  intros Hp. rewrite observe_after. unfold step, rejection.
  destruct (current (run s0 evs)) eqn:E; try discriminate; simpl;
    rewrite run_this_timeout; reflexivity.
Qed.

(** C4 (amended): when the transport call, or the reading of the body,
    fails with an [Error] that is neither named [AbortError] nor an SDK error,
    the operation fails with a NetworkError whose message is that error's
    message and whose cause is that error; an [Error] named [AbortError]
    gives the TimeoutError; an SDK error is re-raised as it is; a failure
    that is not an [Error] instance gives a NetworkError with the fixed
    message "An unknown error occurred" and no cause. *)
Theorem C4_transport_failure_mapping (s0 : request_state) (evs : list event) :
  is_pending (current (run s0 evs)) = true ->
  (forall e,
      jsstring_eqb (err_name e) (lit "AbortError") = false ->
      observe (Normal s0) (evs ++ [rejection (current (run s0 evs)) (ThrowError e)])
      = Some (Raised (ThrowSdk (WdkIndexerNetworkError (err_message e) (Some e)))))
  /\ (forall e,
      jsstring_eqb (err_name e) (lit "AbortError") = true ->
      observe (Normal s0) (evs ++ [rejection (current (run s0 evs)) (ThrowError e)])
      = Some (Raised (ThrowSdk (new_WdkIndexerTimeoutError (this_timeout s0)))))
  /\ (forall e,
      observe (Normal s0) (evs ++ [rejection (current (run s0 evs)) (ThrowSdk e)])
      = Some (Raised (ThrowSdk e)))
  /\ (forall v,
      observe (Normal s0) (evs ++ [rejection (current (run s0 evs)) (ThrowValue v)])
      = Some (Raised (ThrowSdk unknown_error_occurred))).
Proof.
  intros Hp. repeat split; intros; rewrite (observe_rejection _ _ _ Hp); simpl;
    try rewrite H; reflexivity.
Qed.

Lemma C4_witness_connection_refused :
  is_pending (current (run Tests.health_request [])) = true
  /\ jsstring_eqb (err_name Tests.connection_refused) (lit "AbortError") = false
  /\ observe (Normal Tests.health_request)
       ([] ++ [rejection (current (run Tests.health_request []))
                 (ThrowError Tests.connection_refused)])
     = Some (Raised (ThrowSdk (WdkIndexerNetworkError (lit "Connection refused")
                                 (Some Tests.connection_refused))))
  /\ jsstring_eqb (err_name Tests.aborted) (lit "AbortError") = true
  /\ observe (Normal Tests.health_request)
       ([] ++ [rejection (current (run Tests.health_request []))
                 (ThrowError Tests.aborted)])
     = Some (Raised (ThrowSdk (new_WdkIndexerTimeoutError 30000))).
Proof.
  split; [reflexivity|]. split; [reflexivity|]. split.
  - apply (proj1 (C4_transport_failure_mapping Tests.health_request [] eq_refl)).
    reflexivity.
  - split; [reflexivity|].
    apply (proj1 (proj2 (C4_transport_failure_mapping Tests.health_request [] eq_refl))).
    reflexivity.
Defined.

(** C4 as stated fails: the transport rejects with a value that is not an
    [Error] instance (here an object with a [message]); the NetworkError has
    neither that message nor a cause. *)
Lemma C4_counterexample_non_Error_rejection :
  observe (health Tests.client) [FetchSettles (Rejected (ThrowValue thrown_object))]
  = Some (Raised (ThrowSdk (WdkIndexerNetworkError (lit "An unknown error occurred") None)))
  /\ payload_field (lit "message") thrown_object = VString (lit "Connection refused")
  /\ jsstring_eqb (lit "An unknown error occurred") (lit "Connection refused") = false.
Proof. repeat split; reflexivity. Qed.

(** ** The timeout *)

(** C3 (amended): when the timer fires while the request is still pending,
    the abort signal handed to the transport is aborted and the request stays
    pending; if the awaited promise then rejects with an [Error] named
    [AbortError], the operation fails with a TimeoutError whose message
    carries the configured duration; and on every completion path the timer
    has been cleared. *)
Theorem C3_timer_aborts_and_is_cleared (this : WdkIndexerClient)
    (method : http_method) (path : jsstring) (options : option request_options)
    (evs : list event) :
  is_pending (current (run (_request this method path options) evs)) = true ->
  timer_pending (run (_request this method path options) evs) = true ->
  signal_aborted (run (_request this method path options) (evs ++ [TimerFires])) = true
  /\ current (run (_request this method path options) (evs ++ [TimerFires]))
     = current (run (_request this method path options) evs)
  /\ (forall e,
        err_name e = lit "AbortError" ->
        observe (Normal (_request this method path options))
          ((evs ++ [TimerFires])
           ++ [rejection (current (run (_request this method path options) evs))
                 (ThrowError e)])
        = Some (timed_out (timeout this)))
  /\ (forall evs' result,
        current (run (_request this method path options) evs') = Settled result ->
        timer_cleared (run (_request this method path options) evs') = true
        /\ timer_pending (run (_request this method path options) evs') = false).
Proof.
  intros Hp Ht.
  assert (Hfire : run (_request this method path options) (evs ++ [TimerFires])
                  = fire (run (_request this method path options) evs)).
  { rewrite run_app. simpl. unfold step. rewrite Ht. reflexivity. }
  split; [rewrite Hfire; reflexivity|].
  split; [rewrite Hfire; reflexivity|].
  split.
  - intros e He.
    assert (Hp' : is_pending (current (run (_request this method path options)
                                         (evs ++ [TimerFires]))) = true).
    { rewrite Hfire. exact Hp. }
    assert (Hcur : current (run (_request this method path options)
                                  (evs ++ [TimerFires]))
                   = current (run (_request this method path options) evs)).
    { rewrite Hfire. reflexivity. }
    pose proof (observe_rejection _ _ (ThrowError e) Hp') as Ho.
    rewrite Hcur in Ho. rewrite Ho.
    simpl. rewrite He. reflexivity.
  - intros evs' result. apply _request_releases_timer.
Qed.

Lemma C3_witness_aborted_fetch :
  is_pending (current (run Tests.health_request [])) = true
  /\ timer_pending (run Tests.health_request []) = true
  /\ signal_aborted (run Tests.health_request ([] ++ [TimerFires])) = true
  /\ err_name Tests.aborted = lit "AbortError"
  /\ observe (Normal Tests.health_request)
       (([] ++ [TimerFires])
        ++ [rejection (current (run Tests.health_request [])) (ThrowError Tests.aborted)])
     = Some (timed_out 30000)
  /\ current (run Tests.health_request
                [TimerFires; FetchSettles (Rejected (ThrowError Tests.aborted))])
     = Settled (timed_out 30000)
  /\ timer_cleared (run Tests.health_request
                      [TimerFires; FetchSettles (Rejected (ThrowError Tests.aborted))])
     = true.
Proof.
  split; [reflexivity|]. split; [reflexivity|].
  pose proof (C3_timer_aborts_and_is_cleared Tests.client GET (lit "/api/v1/health")
                None [] eq_refl eq_refl) as (Hs & _ & Ha & Hc).
  split; [exact Hs|]. split; [reflexivity|].
  split; [apply (Ha Tests.aborted); reflexivity|].
  split; [reflexivity|].
  apply (Hc [TimerFires; FetchSettles (Rejected (ThrowError Tests.aborted))]
            (timed_out 30000)). reflexivity.
Defined.

(** C3 as stated fails: the timer fires first and aborts the signal, but
    the transport takes no notice and later resolves; the operation stays
    pending after the timer and then returns the body. *)
Lemma C3_counterexample_transport_ignores_abort :
  signal_aborted (run Tests.health_request [TimerFires]) = true
  /\ observe (health Tests.client) [TimerFires] = None
  /\ observe (health Tests.client)
       [TimerFires; FetchSettles (Fulfilled Tests.ok_response);
        JsonSettles (Fulfilled (VObject [(lit "status", VString (lit "ok"))]))]
     = Some (Returned (VObject [(lit "status", VString (lit "ok"))])).
Proof. repeat split; reflexivity. Qed.

(** ** Batch operations *)

Lemma observe_success (s0 : request_state) (evs : list event)
    (response : Response) (data : value) :
  current (run s0 evs) = AwaitingJson response ->
  ok response = true ->
  observe (Normal s0) (evs ++ [JsonSettles (Fulfilled data)]) = Some (Returned data).
Proof.
  intros Hstage Hok. rewrite (observe_body _ _ _ _ Hstage).
  unfold after_json. rewrite Hok. reflexivity.
Qed.

(** C5 (amended): when the POST of a batch operation completes with a
    success status and its body parses to [data], the operation returns
    [data] itself, whatever it holds: an error payload in a slot stays a
    value in the returned array and raises nothing, and the length and order
    of the array are those the server sent (the client neither checks them
    against the request array nor changes them).  A batch operation that
    does fail, fails with an SDK error. *)
Theorem C5_batch_returns_body_verbatim (this : WdkIndexerClient)
    (requests : list value) (evs : list event) (response : Response) (data : value) :
  ok response = true ->
  (stage_after (getBatchTokenTransfers this requests) evs = Some (AwaitingJson response) ->
   observe (getBatchTokenTransfers this requests) (evs ++ [JsonSettles (Fulfilled data)])
   = Some (Returned data))
  /\ (stage_after (getBatchTokenBalances this requests) evs = Some (AwaitingJson response) ->
      observe (getBatchTokenBalances this requests) (evs ++ [JsonSettles (Fulfilled data)])
      = Some (Returned data))
  /\ (forall evs' t,
        observe (getBatchTokenTransfers this requests) evs' = Some (Raised t)
        \/ observe (getBatchTokenBalances this requests) evs' = Some (Raised t) ->
        instanceof_WdkIndexerError t = true).
Proof.
  intros Hok. split; [|split].
  - unfold getBatchTokenTransfers, stage_after. intros [= Hstage].
    apply (observe_success _ _ _ _ Hstage Hok).
  - unfold getBatchTokenBalances, stage_after. intros [= Hstage].
    apply (observe_success _ _ _ _ Hstage Hok).
  - intros evs' t [H|H];
      apply (_request_raises_only_sdk_errors _ _ _ _ _ _ H).
Qed.

Lemma C5_witness_partial_failure :
  ok Tests.ok_response = true
  /\ stage_after (getBatchTokenTransfers Tests.client two_requests)
       [FetchSettles (Fulfilled Tests.ok_response)]
     = Some (AwaitingJson Tests.ok_response)
  /\ observe (getBatchTokenTransfers Tests.client two_requests)
       ([FetchSettles (Fulfilled Tests.ok_response)]
        ++ [JsonSettles (Fulfilled transfers_then_error)])
     = Some (Returned transfers_then_error)
  /\ observe (getBatchTokenTransfers Tests.client two_requests)
       [FetchSettles (Rejected (ThrowError Tests.connection_refused))]
     = Some (Raised (ThrowSdk (WdkIndexerNetworkError (lit "Connection refused")
                                 (Some Tests.connection_refused))))
  /\ instanceof_WdkIndexerError
       (ThrowSdk (WdkIndexerNetworkError (lit "Connection refused")
                    (Some Tests.connection_refused))) = true.
Proof.
  pose proof (C5_batch_returns_body_verbatim Tests.client two_requests
                [FetchSettles (Fulfilled Tests.ok_response)] Tests.ok_response
                transfers_then_error eq_refl) as (Hreturn & _ & Htyped).
  split; [reflexivity|]. split; [reflexivity|].
  split; [apply Hreturn; reflexivity|].
  split; [reflexivity|].
  apply (Htyped [FetchSettles (Rejected (ThrowError Tests.connection_refused))]).
  left. reflexivity.
Defined.

(** C5 as stated fails: the server answers a batch of two requests with an
    empty array and a success status; the operation returns the empty array. *)
Lemma C5_counterexample_length_mismatch :
  observe (getBatchTokenTransfers Tests.client two_requests)
    [FetchSettles (Fulfilled Tests.ok_response); JsonSettles (Fulfilled (VArray []))]
  = Some (Returned (VArray []))
  /\ observe (getBatchTokenBalances Tests.client two_requests)
       [FetchSettles (Fulfilled Tests.ok_response); JsonSettles (Fulfilled (VArray []))]
     = Some (Returned (VArray []))
  /\ List.length (@nil value) <> List.length two_requests.
Proof. repeat split; try reflexivity. discriminate. Qed.

(** ** Percent-encoding of the address *)

Lemma jsstring_pair_ind (P : jsstring -> Prop) :
  P [] ->
  (forall c rest,
      P rest -> (forall c2 rest', rest = c2 :: rest' -> P rest') -> P (c :: rest)) ->
  forall s, P s.
Proof.
  intros Hnil Hcons s.
  enough (H : P s /\ (forall c2 rest', s = c2 :: rest' -> P rest')) by apply H.
  induction s as [|c rest [IH1 IH2]].
  - split; [exact Hnil | discriminate].
  - split.
    + apply Hcons; assumption.
    + intros c2 rest' [= _ <-]. exact IH1.
Qed.

Lemma uri_unescaped_ascii (c : Z) : uri_unescaped c = true -> 33 <= c <= 126.
Proof.
  unfold uri_unescaped, is_alnum. cbn.
  rewrite !orb_true_iff, !andb_true_iff, !Z.leb_le, !Z.eqb_eq. lia.
Qed.

Lemma ascii_not_surrogate (c : Z) :
  c <= 126 -> is_trailing_surrogate c = false /\ is_leading_surrogate c = false.
Proof.
  intros H. unfold is_trailing_surrogate, is_leading_surrogate.
  split; apply andb_false_iff; left; apply Z.leb_gt; lia.
Qed.

Lemma encodeURIComponent_well_formed (s : jsstring) :
  well_formed s = true -> exists encoded, encodeURIComponent s = Normal encoded.
Proof.
  induction s as [|c rest IH1 IH2] using jsstring_pair_ind; simpl.
  - intros _. exists []. reflexivity.
  - destruct (uri_unescaped c) eqn:Hu.
    + destruct (ascii_not_surrogate c) as [-> ->];
        [apply uri_unescaped_ascii in Hu; lia|].
      intros Hw. destruct (IH1 Hw) as [R ->]. simpl. eexists; reflexivity.
    + destruct (is_trailing_surrogate c); [discriminate|].
      destruct (is_leading_surrogate c).
      * destruct rest as [|second rest']; [discriminate|].
        destruct (is_trailing_surrogate second); [|discriminate].
        simpl. intros Hw. destruct (IH2 second rest' eq_refl Hw) as [R ->].
        simpl. eexists; reflexivity.
      * intros Hw. destruct (IH1 Hw) as [R ->]. simpl. eexists; reflexivity.
Qed.

Lemma encodeURIComponent_ill_formed (s : jsstring) :
  well_formed s = false -> encodeURIComponent s = Throw URI_malformed.
Proof.
  induction s as [|c rest IH1 IH2] using jsstring_pair_ind; simpl.
  - discriminate.
  - destruct (uri_unescaped c) eqn:Hu.
    + destruct (ascii_not_surrogate c) as [-> ->];
        [apply uri_unescaped_ascii in Hu; lia|].
      intros Hw. rewrite (IH1 Hw). reflexivity.
    + destruct (is_trailing_surrogate c); [reflexivity|].
      destruct (is_leading_surrogate c).
      * destruct rest as [|second rest']; [reflexivity|].
        destruct (is_trailing_surrogate second); [|reflexivity].
        simpl. intros Hw. rewrite (IH2 second rest' eq_refl Hw). reflexivity.
      * intros Hw. rewrite (IH1 Hw). reflexivity.
Qed.

Lemma hex_digit_alnum (n : Z) : is_alnum (hex_digit n) = true.
Proof.
  unfold hex_digit.
  assert (Hk : (Z.to_nat (Z.land n 15) < 16)%nat).
  { change 15 with (Z.ones 4). rewrite Z.land_ones by lia.
    pose proof (Z.mod_pos_bound n (2 ^ 4)). lia. }
  revert Hk. generalize (Z.to_nat (Z.land n 15)). intros k Hk.
  do 16 (destruct k as [|k]; [reflexivity|]). lia.
Qed.

Lemma hex_digit_safe (n : Z) : path_safe (hex_digit n) = true.
Proof. unfold path_safe, uri_unescaped. rewrite hex_digit_alnum. reflexivity. Qed.

Lemma percent_octets_safe (bs : list Z) : forallb path_safe (percent_octets bs) = true.
Proof.
  unfold percent_octets.
  induction bs as [|b bs IH]; [reflexivity|].
  cbn [flat_map]. rewrite forallb_app, IH.
  unfold percent_octet. cbn [forallb]. rewrite !hex_digit_safe. reflexivity.
Qed.

Lemma encodeURIComponent_safe (s encoded : jsstring) :
  encodeURIComponent s = Normal encoded -> forallb path_safe encoded = true.
Proof.
  revert encoded.
  induction s as [|c rest IH1 IH2] using jsstring_pair_ind; simpl; intros encoded.
  - intros [= <-]. reflexivity.
  - destruct (uri_unescaped c) eqn:Hu.
    + destruct (encodeURIComponent rest) as [R|] eqn:ER; simpl; [|discriminate].
      intros [= <-]. simpl. unfold path_safe at 1. rewrite Hu. simpl.
      apply (IH1 R eq_refl).
    + destruct (is_trailing_surrogate c); [discriminate|].
      destruct (is_leading_surrogate c).
      * destruct rest as [|second rest']; [discriminate|].
        destruct (is_trailing_surrogate second); [|discriminate].
        destruct (encodeURIComponent rest') as [R|] eqn:ER; simpl; [|discriminate].
        intros [= <-]. rewrite forallb_app, percent_octets_safe.
        apply (IH2 second rest' eq_refl R ER).
      * destruct (encodeURIComponent rest) as [R|] eqn:ER; simpl; [|discriminate].
        intros [= <-]. rewrite forallb_app, percent_octets_safe.
        apply (IH1 R eq_refl).
Qed.

(** No character that [path_safe] rejects occurs in an encoded component. *)
Lemma path_safe_excludes (encoded : jsstring) (c : Z) :
  forallb path_safe encoded = true -> path_safe c = false -> ~ In c encoded.
Proof.
  intros Hs Hc Hin. rewrite forallb_forall in Hs.
  specialize (Hs c Hin). congruence.
Qed.

Lemma includes_startsWith (hay needle : jsstring) :
  startsWith hay needle = true -> includes hay needle = true.
Proof. destruct hay; simpl; intros ->; reflexivity. Qed.


Lemma request_url_prefix (this : WdkIndexerClient) (path : jsstring)
    (options : option request_options) :
  exists query, request_url this path options = (baseUrl this ++ path) ++ query.
Proof.
  unfold request_url.
  destruct options as [[[q|] b]|]; simpl;
    try (exists []; rewrite app_nil_r; reflexivity).
  destruct (truthy_string _);
    [eexists; reflexivity | exists []; rewrite app_nil_r; reflexivity].
Qed.

(** C8 (amended): for every address without an unpaired surrogate,
    [getTokenTransfers] and [getTokenBalance] call the transport with a URL
    whose address segment is the percent-encoded address; the segment is made
    of unescaped characters and [%] only, so it holds no [/] (nor [?], [#],
    [&], [=]) and cannot change the path structure.  In particular the
    address "0x1234/5678" appears in the URL as "0x1234%2F5678". *)
Theorem C8_address_segment_is_percent_encoded (this : WdkIndexerClient)
    (blockchain token address : jsstring)
    (options : option GetTokenTransfersOptions) :
  (well_formed address = true ->
   exists encoded,
     encodeURIComponent address = Normal encoded
     /\ forallb path_safe encoded = true
     /\ ~ In slash encoded
     /\ (exists s,
           getTokenBalance this blockchain token address = Normal s
           /\ call_url s
              = baseUrl this ++ lit "/api/v1/" ++ blockchain ++ lit "/" ++ token
                ++ lit "/" ++ encoded ++ lit "/token-balances")
     /\ (exists s query,
           getTokenTransfers this blockchain token address options = Normal s
           /\ call_url s
              = (baseUrl this ++ lit "/api/v1/" ++ blockchain ++ lit "/" ++ token
                 ++ lit "/" ++ encoded ++ lit "/token-transfers") ++ query))
  /\ (exists s,
        getTokenBalance this blockchain token (lit "0x1234/5678") = Normal s
        /\ includes (call_url s) (lit "0x1234%2F5678") = true)
  /\ (exists s,
        getTokenTransfers this blockchain token (lit "0x1234/5678") options = Normal s
        /\ includes (call_url s) (lit "0x1234%2F5678") = true).
Proof.
  split; [|split].
  - intros Hw.
    destruct (encodeURIComponent_well_formed address Hw) as [encoded He].
    exists encoded. split; [exact He|].
    pose proof (encodeURIComponent_safe _ _ He) as Hsafe.
    split; [exact Hsafe|]. split.
    { apply (path_safe_excludes encoded slash Hsafe). reflexivity. }
    split.
    + unfold getTokenBalance. rewrite He. simpl.
      eexists. split; reflexivity.
    + unfold getTokenTransfers. rewrite He. simpl bind.
      eexists.
      match goal with
      | |- exists query, Normal (_request ?c ?m ?p ?o) = _ /\ _ =>
          destruct (request_url_prefix c p o) as [query Hq]
      end.
      exists query. split; [reflexivity | exact Hq].
  - eexists. split; [reflexivity|].
    unfold _request, request_url, address_path. cbn [call_url].
    apply includes_app_r.
    apply (includes_app_r (lit "/api/v1/")), includes_app_r.
    apply (includes_app_r (lit "/")), includes_app_r.
    apply (includes_app_r (lit "/")).
    apply includes_startsWith. reflexivity.
  - eexists. split; [reflexivity|].
    unfold _request. cbn [call_url].
    match goal with
    | |- includes (request_url ?c ?p ?o) _ = true =>
        destruct (request_url_prefix c p o) as [query ->]
    end.
    unfold address_path.
    apply includes_app_l, includes_app_r.
    apply (includes_app_r (lit "/api/v1/")), includes_app_r.
    apply (includes_app_r (lit "/")), includes_app_r.
    apply (includes_app_r (lit "/")).
    apply includes_startsWith. reflexivity.
Qed.

Lemma C8_witness_hex_address :
  well_formed (lit "0xdAC17F958D2ee523a2206206994597C13D831ec7") = true
  /\ exists encoded,
       encodeURIComponent (lit "0xdAC17F958D2ee523a2206206994597C13D831ec7")
         = Normal encoded
       /\ ~ In slash encoded.
Proof.
  split; [reflexivity|].
  destruct (proj1 (C8_address_segment_is_percent_encoded Tests.client
                     (lit "ethereum") (lit "usdt")
                     (lit "0xdAC17F958D2ee523a2206206994597C13D831ec7") None)
                  eq_refl) as (encoded & He & _ & Hslash & _).
  exists encoded. split; assumption.
Defined.

(** C8 as stated fails: for an address holding an unpaired surrogate no
    URL is built at all; both operations throw before the transport is
    called. *)
Lemma C8_counterexample_unpaired_surrogate :
  getTokenBalance Tests.client (lit "ethereum") (lit "usdt") lone_surrogate
    = Throw URI_malformed
  /\ getTokenTransfers Tests.client (lit "ethereum") (lit "usdt") lone_surrogate None
    = Throw URI_malformed
  /\ stage_after
       (getTokenBalance Tests.client (lit "ethereum") (lit "usdt") lone_surrogate) []
     = None.
Proof. repeat split; reflexivity. Qed.

(** ** Errors that are not SDK errors *)

Lemma encodeURIComponent_throws (s : jsstring) (t : thrown) :
  encodeURIComponent s = Throw t -> t = URI_malformed /\ well_formed s = false.
Proof.
  intros H. destruct (well_formed s) eqn:Hw.
  - destruct (encodeURIComponent_well_formed s Hw) as [encoded He]. congruence.
  - rewrite (encodeURIComponent_ill_formed s Hw) in H. split; congruence.
Qed.

(** C2, at the input where the code departs from it: an address holding an
    unpaired surrogate makes [encodeURIComponent] throw while the path is
    being built, before [_request] and its [try] are entered; whatever the
    transport would do, [getTokenBalance] and [getTokenTransfers] reject with
    that [URIError], which is not an instance of [WdkIndexerError].  It is the
    only failure of an operation that is not an SDK error: any other failure,
    under every behaviour of the transport, is an instance of
    [WdkIndexerError]. *)
Theorem C2_URIError_escapes_address_operations (this : WdkIndexerClient)
    (blockchain token : jsstring) (options : option GetTokenTransfersOptions)
    (evs : list event) :
  observe (getTokenBalance this blockchain token lone_surrogate) evs
    = Some (Raised URI_malformed)
  /\ observe (getTokenTransfers this blockchain token lone_surrogate options) evs
    = Some (Raised URI_malformed)
  /\ instanceof_WdkIndexerError URI_malformed = false
  /\ (forall op t,
        observe (invoke this op) evs = Some (Raised t) ->
        instanceof_WdkIndexerError t = true
        \/ (t = URI_malformed
            /\ exists address, address_of op = Some address
                               /\ well_formed address = false)).
Proof.
  split; [reflexivity|]. split; [reflexivity|]. split; [reflexivity|].
  intros op t H.
  destruct (invoke this op) as [s|t0] eqn:Hop.
  - left. apply (started_operation_raises_only_sdk_errors _ _ _ _ _ Hop H).
  - right. injection H as <-.
    destruct op; simpl in Hop;
      unfold health, getTokenTransfers, getBatchTokenTransfers, getTokenBalance,
        getBatchTokenBalances, bind in Hop; try discriminate;
      destruct (encodeURIComponent address) as [encoded|t1] eqn:He;
      try discriminate; injection Hop as <-;
      destruct (encodeURIComponent_throws _ _ He) as [-> Hw];
      (split; [reflexivity | exists address; split; [reflexivity | exact Hw]]).
Qed.

Lemma C2_witness_connection_refused :
  observe (invoke Tests.client Health)
    [FetchSettles (Rejected (ThrowError Tests.connection_refused))]
  = Some (Raised (ThrowSdk (WdkIndexerNetworkError (lit "Connection refused")
                              (Some Tests.connection_refused))))
  /\ (instanceof_WdkIndexerError
        (ThrowSdk (WdkIndexerNetworkError (lit "Connection refused")
                     (Some Tests.connection_refused))) = true
      \/ (ThrowSdk (WdkIndexerNetworkError (lit "Connection refused")
                      (Some Tests.connection_refused)) = URI_malformed
          /\ exists address, address_of Health = Some address
                             /\ well_formed address = false)).
Proof.
  split; [reflexivity|].
  apply (proj2 (proj2 (proj2
           (C2_URIError_escapes_address_operations Tests.client [] [] None
              [FetchSettles (Rejected (ThrowError Tests.connection_refused))])))
           Health).
  reflexivity.
Defined.

(** Apart from that, the operations keep the policy: [health] and the batch
    operations always reach [_request], and so do the address operations on
    an address that can be encoded. *)
Lemma operations_without_address_start (this : WdkIndexerClient)
    (requests : list value) :
  (exists s, health this = Normal s)
  /\ (exists s, getBatchTokenTransfers this requests = Normal s)
  /\ (exists s, getBatchTokenBalances this requests = Normal s).
Proof. repeat split; eexists; reflexivity. Qed.

(** ** The query string *)

Lemma fold_append_entry (query : list (jsstring * query_value))
    (params : URLSearchParams) :
  fold_left append_entry query params = params ++ stringified_entries query.
Proof.
  revert params. induction query as [|[key val] query IH]; intros params.
  - simpl. rewrite app_nil_r. reflexivity.
  - cbn [fold_left]. rewrite IH.
    unfold stringified_entries, defined_entries, append_entry, append.
    cbn [filter snd fst].
    destruct (is_undefined val); cbn [negb map fst snd].
    + reflexivity.
    + rewrite <- app_assoc. reflexivity.
Qed.

Lemma URLSearchParams_toString_truthy (params : URLSearchParams) :
  truthy_string (URLSearchParams_toString params)
  = match params with [] => false | _ :: _ => true end.
Proof.
  destruct params as [|[name val] rest]; [reflexivity|].
  cbn [URLSearchParams_toString].
  destruct (form_urlencode name); reflexivity.
Qed.

Lemma request_url_query (this : WdkIndexerClient) (path : jsstring)
    (query : list (jsstring * query_value)) (body : option value) :
  request_url this path (Some (mkOptions (Some query) body))
  = (baseUrl this ++ path) ++ query_suffix (stringified_entries query).
Proof.
  unfold request_url. cbn [request_query].
  rewrite fold_append_entry. unfold new_URLSearchParams. cbn [app].
  rewrite URLSearchParams_toString_truthy. unfold query_suffix.
  destruct (stringified_entries query).
  - symmetry. apply app_nil_r.
  - reflexivity.
Qed.

(** A string of letters, digits and [* - . _] is its own form encoding. *)
Lemma form_safe_ascii (c : Z) : form_safe c = true -> 42 <= c <= 122.
Proof.
  unfold form_safe, is_alnum. cbn.
  rewrite !orb_true_iff, !andb_true_iff, !Z.leb_le, !Z.eqb_eq. lia.
Qed.

Lemma utf8_encode_ascii (c : Z) : c < 128 -> utf8_encode c = [c].
Proof.
  intros H. unfold utf8_encode.
  replace (c <? 128) with true by (symmetry; apply Z.ltb_lt; lia).
  reflexivity.
Qed.

Lemma form_octet_safe (c : Z) : form_safe c = true -> form_octet c = [c].
Proof.
  intros H. pose proof (form_safe_ascii c H). unfold form_octet.
  replace (c =? 32) with false by (symmetry; apply Z.eqb_neq; lia).
  rewrite H. reflexivity.
Qed.

Lemma form_urlencode_safe (s : jsstring) :
  forallb form_safe s = true -> form_urlencode s = s.
Proof.
  unfold form_urlencode.
  induction s as [|c rest IH]; [reflexivity|].
  cbn [forallb]. intros H. apply andb_true_iff in H as [Hc Hrest].
  pose proof (form_safe_ascii c Hc) as Hrange.
  cbn [scalar_values].
  destruct (ascii_not_surrogate c) as [-> ->]; [lia|].
  cbn [flat_map]. rewrite (utf8_encode_ascii c) by lia.
  change (flat_map form_octet ([c] ++ flat_map utf8_encode (scalar_values rest)))
    with (form_octet c ++ flat_map form_octet (flat_map utf8_encode (scalar_values rest))).
  rewrite (form_octet_safe c Hc), (IH Hrest). reflexivity.
Qed.

Lemma Number_toString_form_safe (n : Z) :
  isSafeInteger n = true -> forallb form_safe (Number_toString n) = true.
Proof.
  intros Hsafe. apply forallb_forall. intros c Hc.
  destruct (Number_toString_chars n c Hsafe Hc) as [->|Hd]; [reflexivity|].
  unfold form_safe, is_alnum. unfold is_digit in Hd. rewrite Hd. reflexivity.
Qed.


(** Whatever is encoded, the form encoding is made of the characters it
    keeps, [+] and [%]. *)
Lemma form_octet_alphabet (b : Z) : forallb query_safe (form_octet b) = true.
Proof.
  unfold form_octet. destruct (b =? 32); [reflexivity|].
  destruct (form_safe b) eqn:Hs.
  - cbn [forallb]. unfold query_safe. rewrite Hs. reflexivity.
  - unfold percent_octet. cbn [forallb].
    assert (Hh : forall n, query_safe (hex_digit n) = true).
    { intros n. unfold query_safe, form_safe. rewrite hex_digit_alnum. reflexivity. }
    rewrite !Hh. reflexivity.
Qed.

Lemma form_urlencode_alphabet (s : jsstring) :
  forallb query_safe (form_urlencode s) = true.
Proof.
  unfold form_urlencode. generalize (flat_map utf8_encode (scalar_values s)).
  intros bs. induction bs as [|b bs IH]; [reflexivity|].
  cbn [flat_map]. rewrite forallb_app, form_octet_alphabet, IH. reflexivity.
Qed.


(** *** Substrings of a URL *)









(** * Further properties *)

(** ** Construction *)

Lemma replace_trailing_slash_snoc (u : jsstring) :
  replace_trailing_slash (u ++ [47]) = u.
Proof.
  induction u as [|c rest IH]; [reflexivity|].
  change ((c :: rest) ++ [47]) with (c :: (rest ++ [47])).
  cbn [replace_trailing_slash]. rewrite IH.
  destruct (rest ++ [47]) eqn:E; [destruct rest; discriminate | reflexivity].
Qed.

Lemma replace_trailing_slash_other (s : jsstring) :
  last s 0 <> 47 -> replace_trailing_slash s = s.
Proof.
  induction s as [|c rest IH]; [reflexivity|].
  destruct rest as [|d rest'].
  - simpl. intros H. destruct (c =? 47) eqn:E; [|reflexivity].
    apply Z.eqb_eq in E. contradiction.
  - intros H. change (replace_trailing_slash (c :: d :: rest'))
      with (c :: replace_trailing_slash (d :: rest')).
    rewrite IH; [reflexivity | exact H].
Qed.

(** X1: a client that was constructed keeps the configured base URL with
    exactly one trailing slash dropped, and the health URL is what is kept
    followed by [/api/v1/health]; of two trailing slashes one is kept, so
    that the URL then has a doubled slash where base URL and path meet.  A
    base URL that does not end in a slash is kept as it is; an absent or
    empty base URL gives the production URL. *)
Theorem X1_baseUrl_trailing_slash (globalThis_fetch : option fetch_function)
    (config : WdkIndexerConfig) (this : WdkIndexerClient) :
  constructor globalThis_fetch config = Normal this ->
  (forall u,
      config_baseUrl config = Some (u ++ lit "/") ->
      baseUrl this = u
      /\ exists s, health this = Normal s /\ call_url s = u ++ lit "/api/v1/health")
  /\ (forall u,
      config_baseUrl config = Some (u ++ lit "//") ->
      baseUrl this = u ++ lit "/"
      /\ exists s, health this = Normal s /\ call_url s = u ++ lit "//api/v1/health")
  /\ (forall b,
      config_baseUrl config = Some b -> b <> [] -> last b 0 <> 47 ->
      baseUrl this = b)
  /\ (config_baseUrl config = None \/ config_baseUrl config = Some [] ->
      baseUrl this = lit "https://wdk-api.tether.io").
Proof.
  unfold constructor.
  destruct (apiKey_missing _); [discriminate|].
  destruct (or_function _ _) as [f|]; [|discriminate].
  intros [= <-]. cbn [baseUrl].
  assert (Hone : forall u,
    config_baseUrl config = Some (u ++ lit "/") ->
    replace_trailing_slash
      (or_string (config_baseUrl config) (lit "https://wdk-api.tether.io")) = u).
  { intros u ->. unfold or_string.
    assert (Ht : truthy_string (u ++ lit "/") = true) by (destruct u; reflexivity).
    rewrite Ht. change (lit "/") with [47]. apply replace_trailing_slash_snoc. }
  split; [|split; [|split]].
  - intros u Hu. rewrite (Hone u Hu).
    split; [reflexivity|]. eexists. split; reflexivity.
  - intros u Hu.
    assert (Hu' : config_baseUrl config = Some ((u ++ lit "/") ++ lit "/"))
      by (rewrite Hu, <- app_assoc; reflexivity).
    rewrite (Hone _ Hu').
    split; [reflexivity|]. eexists. split; [reflexivity|].
    symmetry. exact (app_assoc u (lit "/") (lit "/api/v1/health")).
  - intros b -> Hb Hlast. unfold or_string.
    destruct b as [|c b]; [contradiction|]. cbn [truthy_string].
    apply replace_trailing_slash_other. exact Hlast.
  - intros [-> | ->]; reflexivity.
Qed.

Lemma X1_witness_custom_baseUrl :
  constructor None
    (mkConfig (Some (lit "test-key")) (Some (lit "https://custom.example.com" ++ lit "/"))
              (Some 60000) (Some Tests.mockFetch))
  = Normal (mkClient (lit "test-key") (lit "https://custom.example.com") 60000
                     Tests.mockFetch)
  /\ baseUrl (mkClient (lit "test-key") (lit "https://custom.example.com") 60000
                       Tests.mockFetch)
     = lit "https://custom.example.com"
  /\ constructor None
       (mkConfig (Some (lit "test-key")) (Some (lit "https://x.example" ++ lit "//"))
                 None (Some Tests.mockFetch))
     = Normal (mkClient (lit "test-key") (lit "https://x.example/") 30000
                        Tests.mockFetch)
  /\ (exists s,
        health (mkClient (lit "test-key") (lit "https://x.example/") 30000
                         Tests.mockFetch) = Normal s
        /\ call_url s = lit "https://x.example//api/v1/health")
  /\ baseUrl Tests.client = lit "https://wdk-api.tether.io".
Proof.
  split; [reflexivity|]. split; [|split; [reflexivity|split]].
  - apply (proj1 (X1_baseUrl_trailing_slash None
                    (mkConfig (Some (lit "test-key"))
                       (Some (lit "https://custom.example.com" ++ lit "/"))
                       (Some 60000) (Some Tests.mockFetch))
                    _ eq_refl) (lit "https://custom.example.com") eq_refl).
  - apply (proj1 (proj2 (X1_baseUrl_trailing_slash None
                           (mkConfig (Some (lit "test-key"))
                              (Some (lit "https://x.example" ++ lit "//"))
                              None (Some Tests.mockFetch))
                           _ eq_refl)) (lit "https://x.example") eq_refl).
  - apply (proj2 (proj2 (proj2 (X1_baseUrl_trailing_slash None Tests.test_config
                                  Tests.client eq_refl)))).
    left. reflexivity.
Defined.

(** X2: construction succeeds exactly when the API key is a non-empty
    string and a transport is injected or global.  The client then holds the
    key as given, the injected transport in preference to the global one, and
    a timeout that is never 0: the configured timeout when it is not 0, and
    30000 when it is 0 or absent. *)
Theorem X2_constructor_success (globalThis_fetch : option fetch_function)
    (config : WdkIndexerConfig) :
  (forall this,
      constructor globalThis_fetch config = Normal this ->
      config_apiKey config = Some (apiKey this) /\ apiKey this <> []
      /\ timeout this <> 0
      /\ (forall t, config_timeout config = Some t -> t <> 0 -> timeout this = t)
      /\ (config_timeout config = None \/ config_timeout config = Some 0 ->
          timeout this = 30000)
      /\ (forall f, config_fetch config = Some f -> fetchFn this = f)
      /\ (config_fetch config = None -> globalThis_fetch = Some (fetchFn this)))
  /\ (forall c key,
      config_apiKey config = Some (c :: key) ->
      config_fetch config <> None \/ globalThis_fetch <> None ->
      exists this, constructor globalThis_fetch config = Normal this).
Proof.
  split.
  - intros this. unfold constructor.
    destruct (config_apiKey config) as [[|c key]|]; simpl; try discriminate.
    destruct (or_function _ _) as [f|] eqn:Hf; [|discriminate].
    intros [= <-]. cbn [apiKey timeout fetchFn].
    split; [reflexivity|]. split; [discriminate|].
    split.
    { unfold or_number. destruct (config_timeout config) as [t|]; [|discriminate].
      destruct (t =? 0) eqn:E; [discriminate | apply Z.eqb_neq; exact E]. }
    split.
    { intros t -> Ht. unfold or_number.
      apply Z.eqb_neq in Ht. rewrite Ht. reflexivity. }
    split.
    { intros [-> | ->]; reflexivity. }
    split.
    { intros f' Hf'. rewrite Hf' in Hf. simpl in Hf. congruence. }
    intros Hnone. rewrite Hnone in Hf. simpl in Hf. exact Hf.
  - intros c key Hkey Hfetch. unfold constructor. rewrite Hkey. simpl.
    destruct (config_fetch config) as [f|]; simpl; [eexists; reflexivity|].
    destruct globalThis_fetch as [f|]; [eexists; reflexivity|].
    destruct Hfetch as [H|H]; contradiction.
Qed.

Lemma X2_witness_zero_timeout :
  constructor (Some (FetchFunction 1))
    (mkConfig (Some (lit "k")) None (Some 0) (Some Tests.mockFetch))
  = Normal (mkClient (lit "k") (lit "https://wdk-api.tether.io") 30000 Tests.mockFetch)
  /\ timeout (mkClient (lit "k") (lit "https://wdk-api.tether.io") 30000 Tests.mockFetch)
     = 30000
  /\ exists this,
       constructor (Some (FetchFunction 1)) (mkConfig (Some (lit "k")) None None None)
       = Normal this.
Proof.
  split; [reflexivity|]. split.
  - destruct (proj1 (X2_constructor_success (Some (FetchFunction 1))
                       (mkConfig (Some (lit "k")) None (Some 0) (Some Tests.mockFetch)))
                    _ eq_refl) as (_ & _ & _ & _ & H & _).
    apply H. right. reflexivity.
  - apply (proj2 (X2_constructor_success (Some (FetchFunction 1))
                    (mkConfig (Some (lit "k")) None None None))
                 107 []); [reflexivity|].
    right. discriminate.
Defined.

(** ** What the transport is called with *)

Lemma run_call (s : request_state) (evs : list event) :
  call_url (run s evs) = call_url s /\ call_init (run s evs) = call_init s.
Proof.
  apply (run_invariant
           (fun s' => call_url s' = call_url s /\ call_init s' = call_init s)).
  - intros s' ev [Hu Hi]. destruct (step_call s' ev) as [Hu' Hi']. split; congruence.
  - split; reflexivity.
Qed.

(** X3: every request of every operation carries the client's API key in the
    [x-api-key] header and the JSON content type, and nothing that happens
    while the request is in flight changes the headers. *)
Theorem X3_every_request_carries_the_api_key (this : WdkIndexerClient)
    (op : operation) (s : request_state) (evs : list event) :
  invoke this op = Normal s ->
  init_headers (call_init (run s evs))
  = [(lit "x-api-key", apiKey this); (lit "Content-Type", lit "application/json")].
Proof.
  intros H. destruct (run_call s evs) as [_ ->].
  apply invoke_started in H as (method & path & options & ->). reflexivity.
Qed.

Lemma X3_witness_health :
  invoke Tests.client Health = Normal Tests.health_request
  /\ init_headers (call_init (run Tests.health_request [TimerFires]))
     = [(lit "x-api-key", lit "test-key"); (lit "Content-Type", lit "application/json")].
Proof.
  split; [reflexivity|].
  apply (X3_every_request_carries_the_api_key Tests.client Health
           Tests.health_request [TimerFires] eq_refl).
Defined.

(** X4: [health], [getTokenTransfers] and [getTokenBalance] make a GET
    without a body; the batch operations make a POST whose body is the
    serialized requests array, also when the array is empty.  The executor
    sends a body only for a truthy [options.body]: [null], [false], [0] and
    the empty string are sent as no body at all. *)
Theorem X4_method_and_body (this : WdkIndexerClient) :
  (forall op s,
      invoke this op = Normal s ->
      match op with
      | GetBatchTokenTransfers requests | GetBatchTokenBalances requests =>
          init_method (call_init s) = POST
          /\ init_body (call_init s) = Some (JSON_stringify (VArray requests))
      | _ => init_method (call_init s) = GET /\ init_body (call_init s) = None
      end)
  /\ (forall method path query body,
      ToBoolean body = false ->
      init_body (call_init (_request this method path
                              (Some (mkOptions query (Some body))))) = None)
  /\ (forall method path query body,
      ToBoolean body = true ->
      init_body (call_init (_request this method path
                              (Some (mkOptions query (Some body)))))
      = Some (JSON_stringify body)).
Proof.
  split; [|split].
  - intros op s. destruct op; simpl;
      unfold health, getTokenTransfers, getBatchTokenTransfers, getTokenBalance,
        getBatchTokenBalances, bind;
      try destruct (encodeURIComponent address); try discriminate;
      intros [= <-]; split; reflexivity.
  - intros method path query body H. unfold _request, request_init, request_payload.
    cbn [call_init init_body request_body]. rewrite H. reflexivity.
  - intros method path query body H. unfold _request, request_init, request_payload.
    cbn [call_init init_body request_body]. rewrite H. reflexivity.
Qed.

Lemma X4_witness_empty_batch :
  init_method (call_init (_request Tests.client POST
                            (lit "/api/v1/batch/token-balances")
                            (Some (mkOptions None (Some (VArray []))))))
  = POST
  /\ init_body (call_init (_request Tests.client POST
                             (lit "/api/v1/batch/token-balances")
                             (Some (mkOptions None (Some (VArray []))))))
     = Some (JSON_stringify (VArray []))
  /\ ToBoolean (VNumber 0) = false
  /\ init_body (call_init (_request Tests.client POST (lit "/x")
                             (Some (mkOptions None (Some (VNumber 0)))))) = None.
Proof.
  pose proof (X4_method_and_body Tests.client) as (Hop & Hfalsy & _).
  split; [|split; [|split; [reflexivity|]]].
  - apply (Hop (GetBatchTokenBalances []) _ eq_refl).
  - apply (Hop (GetBatchTokenBalances []) _ eq_refl).
  - apply Hfalsy. reflexivity.
Defined.

(** ** The query of [getTokenTransfers] *)

Lemma URLSearchParams_toString_plain (params : URLSearchParams) :
  forallb (fun p => forallb form_safe (fst p) && forallb form_safe (snd p)) params = true ->
  URLSearchParams_toString params = plain_pairs params.
Proof.
  induction params as [|[name val] rest IH]; [reflexivity|].
  cbn [forallb fst snd]. intros H.
  apply andb_true_iff in H as [Hp Hrest]. apply andb_true_iff in Hp as [Hn Hv].
  cbn [URLSearchParams_toString plain_pairs].
  rewrite (form_urlencode_safe name Hn), (form_urlencode_safe val Hv).
  destruct rest as [|q rest']; [reflexivity|].
  rewrite (IH Hrest). reflexivity.
Qed.

Lemma set_options_safe (options : option GetTokenTransfersOptions) :
  safe_options options = true ->
  forallb (fun p => forallb form_safe (fst p) && forallb form_safe (snd p))
          (set_options options) = true.
Proof.
  destruct options as [[l f t]|]; [|reflexivity].
  cbn [safe_options set_options limit fromTs toTs].
  intros H. apply andb_true_iff in H as [H Ht]. apply andb_true_iff in H as [Hl Hf].
  destruct l as [l|], f as [f|], t as [t|];
    cbn [safe_field] in Hl, Hf, Ht;
    cbn [option_entry Datatypes.app forallb fst snd];
    rewrite ?(Number_toString_form_safe _ Hl), ?(Number_toString_form_safe _ Hf),
            ?(Number_toString_form_safe _ Ht);
    reflexivity.
Qed.

(** The query of safe integers is written without any escape. *)
Lemma query_suffix_safe_options (options : option GetTokenTransfersOptions) :
  safe_options options = true ->
  query_suffix (set_options options) = plain_query (set_options options).
Proof.
  intros Hsafe. unfold query_suffix, plain_query.
  rewrite (URLSearchParams_toString_plain _ (set_options_safe options Hsafe)).
  reflexivity.
Qed.

Lemma getTokenTransfers_url (this : WdkIndexerClient)
    (blockchain token address encoded : jsstring)
    (options : option GetTokenTransfersOptions) :
  encodeURIComponent address = Normal encoded ->
  exists s,
    getTokenTransfers this blockchain token address options = Normal s
    /\ call_url s
       = address_url this blockchain token encoded (lit "/token-transfers")
         ++ query_suffix (set_options options).
Proof.
  intros He. unfold getTokenTransfers. rewrite He. simpl bind.
  eexists. split; [reflexivity|].
  unfold _request. cbn [call_url]. rewrite request_url_query.
  assert (Hs : stringified_entries
                 [(lit "limit", optional_field options limit);
                  (lit "fromTs", optional_field options fromTs);
                  (lit "toTs", optional_field options toTs)]
               = set_options options).
  { destruct options as [[[l|] [f|] [t|]]|]; reflexivity. }
  rewrite Hs. unfold address_url, address_path. rewrite <- !app_assoc. reflexivity.
Qed.

(** X5: [getTokenTransfers] appends to the path exactly the options that are
    set, in the order [limit], [fromTs], [toTs], as the serialized query of
    their stringified values; with no options, or none of the three set, the
    URL ends with the path and has no [?].  When the options that are set are
    safe integers, each is written [name=number] with the decimal numeral, the
    entries joined by [&]; an option set to 0 is sent like any other
    number. *)
Theorem X5_transfers_query (this : WdkIndexerClient)
    (blockchain token address encoded : jsstring)
    (options : option GetTokenTransfersOptions) :
  encodeURIComponent address = Normal encoded ->
  exists s,
    getTokenTransfers this blockchain token address options = Normal s
    /\ call_url s
       = address_url this blockchain token encoded (lit "/token-transfers")
         ++ query_suffix (set_options options)
    /\ (set_options options = [] ->
        call_url s
        = address_url this blockchain token encoded (lit "/token-transfers"))
    /\ (safe_options options = true ->
        call_url s
        = address_url this blockchain token encoded (lit "/token-transfers")
          ++ plain_query (set_options options)
        /\ (forall l f t,
            options = Some (mkTransfersOptions (Some l) (Some f) (Some t)) ->
            call_url s
            = address_url this blockchain token encoded (lit "/token-transfers")
              ++ lit "?limit=" ++ Number_toString l
              ++ lit "&fromTs=" ++ Number_toString f
              ++ lit "&toTs=" ++ Number_toString t)).
Proof.
  intros He.
  destruct (getTokenTransfers_url this blockchain token address encoded options He)
    as (s & Hs & Hurl).
  exists s. split; [exact Hs|]. split; [exact Hurl|]. split.
  - intros Hnone. rewrite Hurl, Hnone. apply app_nil_r.
  - intros Hsafe. rewrite Hurl, (query_suffix_safe_options options Hsafe).
    split; [reflexivity|].
    intros l f t ->.
    cbn [set_options option_entry limit fromTs toTs Datatypes.app plain_query plain_pairs].
    rewrite app_nil_r. reflexivity.
Qed.

Lemma X5_witness_limit_zero :
  encodeURIComponent (lit "0x1234") = Normal (lit "0x1234")
  /\ safe_options (Some (mkTransfersOptions (Some 0) None (Some 1700000000))) = true
  /\ (exists s,
       getTokenTransfers Tests.client (lit "ethereum") (lit "usdt") (lit "0x1234")
         (Some (mkTransfersOptions (Some 0) None (Some 1700000000))) = Normal s
       /\ call_url s
          = lit "https://wdk-api.tether.io/api/v1/ethereum/usdt/0x1234/token-transfers?limit=0&toTs=1700000000")
  /\ set_options (Some (mkTransfersOptions None None None)) = []
  /\ (exists s,
       getTokenTransfers Tests.client (lit "ethereum") (lit "usdt") (lit "0x1234")
         (Some (mkTransfersOptions None None None)) = Normal s
       /\ call_url s
          = lit "https://wdk-api.tether.io/api/v1/ethereum/usdt/0x1234/token-transfers")
  /\ safe_options (Some (mkTransfersOptions (Some 5) (Some (-6)) (Some 7))) = true
  /\ (exists s,
       getTokenTransfers Tests.client (lit "ethereum") (lit "usdt") (lit "0x1234")
         (Some (mkTransfersOptions (Some 5) (Some (-6)) (Some 7))) = Normal s
       /\ call_url s
          = lit "https://wdk-api.tether.io/api/v1/ethereum/usdt/0x1234/token-transfers?limit=5&fromTs=-6&toTs=7").
Proof.
  split; [reflexivity|]. split; [reflexivity|].
  split; [|split; [reflexivity|split; [|split; [reflexivity|]]]].
  - destruct (X5_transfers_query Tests.client (lit "ethereum") (lit "usdt")
                (lit "0x1234") (lit "0x1234")
                (Some (mkTransfersOptions (Some 0) None (Some 1700000000))) eq_refl)
      as (s & Hs & _ & _ & Hplain).
    exists s. split; [exact Hs | exact (proj1 (Hplain eq_refl))].
  - destruct (X5_transfers_query Tests.client (lit "ethereum") (lit "usdt")
                (lit "0x1234") (lit "0x1234")
                (Some (mkTransfersOptions None None None)) eq_refl)
      as (s & Hs & _ & Hnone & _).
    exists s. split; [exact Hs | exact (Hnone eq_refl)].
  - destruct (X5_transfers_query Tests.client (lit "ethereum") (lit "usdt")
                (lit "0x1234") (lit "0x1234")
                (Some (mkTransfersOptions (Some 5) (Some (-6)) (Some 7))) eq_refl)
      as (s & Hs & _ & _ & Hplain).
    exists s. split; [exact Hs|].
    exact (proj2 (Hplain eq_refl) 5 (-6) 7 eq_refl).
Defined.

(** ** Addresses that need no escaping *)

Lemma encodeURIComponent_unescaped (s : jsstring) :
  forallb uri_unescaped s = true -> encodeURIComponent s = Normal s.
Proof.
  induction s as [|c rest IH]; [reflexivity|].
  cbn [forallb]. intros H. apply andb_true_iff in H as [Hc Hrest].
  cbn [encodeURIComponent]. rewrite Hc, (IH Hrest). reflexivity.
Qed.

Lemma percent_octets_length (bs : list Z) :
  List.length (percent_octets bs) = (3 * List.length bs)%nat.
Proof.
  unfold percent_octets. induction bs as [|b bs IH]; [reflexivity|].
  cbn [flat_map]. rewrite length_app, IH. simpl. lia.
Qed.

Lemma utf8_encode_length (cp : Z) :
  (1 <= List.length (utf8_encode cp) <= 4)%nat.
Proof.
  unfold utf8_encode.
  destruct (cp <? 128); [simpl; lia|].
  destruct (cp <? 2048); [simpl; lia|].
  destruct (cp <? 65536); simpl; lia.
Qed.

(** The encoded string is at least as long as the string, and longer as
    soon as one character is escaped. *)
Lemma encodeURIComponent_length (s encoded : jsstring) :
  encodeURIComponent s = Normal encoded ->
  (List.length s <= List.length encoded)%nat
  /\ (List.length encoded = List.length s -> forallb uri_unescaped s = true).
Proof.
  revert encoded.
  induction s as [|c rest IH1 IH2] using jsstring_pair_ind; intros encoded.
  - intros [= <-]. split; [simpl; lia | reflexivity].
  - cbn [encodeURIComponent]. destruct (uri_unescaped c) eqn:Hu.
    + destruct (encodeURIComponent rest) as [R|] eqn:ER; simpl; [|discriminate].
      intros [= <-]. destruct (IH1 R eq_refl) as [Hle Heq].
      split; [simpl; lia|]. simpl. intros H. rewrite Hu. apply Heq. lia.
    + destruct (is_trailing_surrogate c); [discriminate|].
      destruct (is_leading_surrogate c).
      * destruct rest as [|second rest']; [discriminate|].
        destruct (is_trailing_surrogate second); [|discriminate].
        destruct (encodeURIComponent rest') as [R|] eqn:ER; simpl; [|discriminate].
        intros [= <-]. destruct (IH2 second rest' eq_refl R ER) as [Hle _].
        rewrite length_app, percent_octets_length.
        pose proof (utf8_encode_length (surrogate_pair c second)).
        split; [simpl; lia | simpl; lia].
      * destruct (encodeURIComponent rest) as [R|] eqn:ER; simpl; [|discriminate].
        intros [= <-]. destruct (IH1 R eq_refl) as [Hle _].
        rewrite length_app, percent_octets_length.
        pose proof (utf8_encode_length c).
        split; [simpl; lia | simpl; lia].
Qed.

(** X6: an address made only of letters, digits and the marks
    [- _ . ! ~ * ' ( )] (a hexadecimal or base-58 address, say) is put into
    the URL as it is, in [getTokenTransfers] followed by the serialized query
    of the options; and the encoding leaves a string unchanged only when the
    string is made of such characters. *)
Theorem X6_plain_address_verbatim (this : WdkIndexerClient)
    (blockchain token address : jsstring)
    (options : option GetTokenTransfersOptions) :
  (forallb uri_unescaped address = true ->
   (exists s,
       getTokenBalance this blockchain token address = Normal s
       /\ call_url s = address_url this blockchain token address (lit "/token-balances"))
   /\ (exists s,
       getTokenTransfers this blockchain token address options = Normal s
       /\ call_url s
          = address_url this blockchain token address (lit "/token-transfers")
            ++ query_suffix (set_options options)))
  /\ (encodeURIComponent address = Normal address ->
      forallb uri_unescaped address = true).
Proof.
  split.
  - intros H. pose proof (encodeURIComponent_unescaped address H) as He. split.
    + unfold getTokenBalance. rewrite He. simpl. eexists. split; reflexivity.
    + apply (getTokenTransfers_url this blockchain token address address options He).
  - intros He. apply (proj2 (encodeURIComponent_length _ _ He)). reflexivity.
Qed.

Lemma X6_witness_hex_address :
  forallb uri_unescaped (lit "0xdAC17F958D2ee523a2206206994597C13D831ec7") = true
  /\ (exists s,
       getTokenBalance Tests.client (lit "ethereum") (lit "usdt")
         (lit "0xdAC17F958D2ee523a2206206994597C13D831ec7") = Normal s
       /\ call_url s
          = lit "https://wdk-api.tether.io/api/v1/ethereum/usdt/0xdAC17F958D2ee523a2206206994597C13D831ec7/token-balances")
  /\ encodeURIComponent (lit "T1234") = Normal (lit "T1234")
  /\ forallb uri_unescaped (lit "T1234") = true.
Proof.
  split; [reflexivity|]. split.
  - destruct (proj1 (X6_plain_address_verbatim Tests.client (lit "ethereum") (lit "usdt")
                       (lit "0xdAC17F958D2ee523a2206206994597C13D831ec7") None) eq_refl)
      as [(s & Hs & Hurl) _].
    exists s. split; [exact Hs | exact Hurl].
  - split; [reflexivity|].
    apply (proj2 (X6_plain_address_verbatim Tests.client (lit "ethereum") (lit "usdt")
                    (lit "T1234") None)).
    reflexivity.
Defined.

(** ** A query value cannot add parameters *)

Lemma count_occ_excluded (l : jsstring) (c : Z) :
  forallb query_safe l = true -> query_safe c = false ->
  count_occ Z.eq_dec l c = 0%nat.
Proof.
  intros Hl Hc. apply count_occ_not_In. intros Hin.
  rewrite forallb_forall in Hl. specialize (Hl c Hin). congruence.
Qed.

Lemma URLSearchParams_toString_counts (params : URLSearchParams) :
  count_occ Z.eq_dec (URLSearchParams_toString params) equals_sign
    = List.length params
  /\ count_occ Z.eq_dec (URLSearchParams_toString params) ampersand
     = pred (List.length params)
  /\ forall c, query_safe c = false -> c <> equals_sign -> c <> ampersand ->
               count_occ Z.eq_dec (URLSearchParams_toString params) c = 0%nat.
Proof.
  unfold equals_sign, ampersand.
  induction params as [|[name val] rest (IHe & IHa & IHc)].
  - repeat split; reflexivity.
  - cbn [URLSearchParams_toString].
    assert (Hn := form_urlencode_alphabet name).
    assert (Hv := form_urlencode_alphabet val).
    destruct rest as [|q rest'].
    + split; [|split; [|intros c Hc Hne Hna]];
        rewrite !count_occ_app, ?(count_occ_excluded _ _ Hn), ?(count_occ_excluded _ _ Hv)
          by (reflexivity || assumption);
        try reflexivity.
      change (lit "=") with [61]. cbn [count_occ].
      destruct (Z.eq_dec 61 c); [congruence | reflexivity].
    + split; [|split; [|intros c Hc Hne Hna]];
        rewrite !count_occ_app, ?(count_occ_excluded _ _ Hn), ?(count_occ_excluded _ _ Hv)
          by (reflexivity || assumption).
      * rewrite IHe. reflexivity.
      * rewrite IHa. reflexivity.
      * rewrite (IHc c Hc Hne Hna).
        change (lit "=") with [61]. change (lit "&") with [38]. cbn [count_occ].
        destruct (Z.eq_dec 61 c); [congruence|].
        destruct (Z.eq_dec 38 c); [congruence | reflexivity].
Qed.

(** X7: whatever strings the keys and values of a query are, the query
    string the executor appends has one [=] per entry that is not
    [undefined] and one [&] between two entries, and beyond the leading [?]
    it holds no [?], [#] or [/]: a key or value cannot add, split or end a
    parameter. *)
Theorem X7_query_cannot_be_injected (this : WdkIndexerClient) (path : jsstring)
    (query : list (jsstring * query_value)) (body : option value) :
  exists appended,
    request_url this path (Some (mkOptions (Some query) body))
    = (baseUrl this ++ path) ++ appended
    /\ count_occ Z.eq_dec appended equals_sign = List.length (defined_entries query)
    /\ count_occ Z.eq_dec appended ampersand
       = pred (List.length (defined_entries query))
    /\ (count_occ Z.eq_dec appended question_mark <= 1)%nat
    /\ count_occ Z.eq_dec appended 35 = 0%nat
    /\ count_occ Z.eq_dec appended slash = 0%nat.
Proof.
  exists (query_suffix (stringified_entries query)).
  split; [apply request_url_query|].
  assert (Hlen : List.length (stringified_entries query)
                 = List.length (defined_entries query)).
  { unfold stringified_entries. apply length_map. }
  destruct (URLSearchParams_toString_counts (stringified_entries query))
    as (He & Ha & Hc).
  unfold query_suffix. rewrite <- Hlen.
  destruct (stringified_entries query) as [|p ps] eqn:E.
  - repeat split; simpl; lia.
  - change (lit "?") with [question_mark].
    repeat split; rewrite ?count_occ_app; cbn [count_occ Datatypes.app].
    + rewrite He. reflexivity.
    + rewrite Ha. reflexivity.
    + rewrite (Hc question_mark); [simpl; lia | reflexivity | discriminate | discriminate].
    + rewrite (Hc 35); [reflexivity | reflexivity | discriminate | discriminate].
    + rewrite (Hc slash); [reflexivity | reflexivity | discriminate | discriminate].
Qed.

(** ** Classifiers on arbitrary objects and arrays *)

(** X8: on an array, whatever its elements are, the three classifiers
    return [false] and none of them throws: a whole batch result handed to
    a classifier is neither an error nor a success item. *)
Theorem X8_classifiers_on_arrays (elements : list value) :
  classify (VArray elements) = (Normal false, Normal false, Normal false).
Proof.
  unfold classify, isTokenTransfersResponse, isTokenBalanceResponse.
  rewrite isApiError_spec.
  rewrite (in_operator_array (lit "transfers") elements eq_refl).
  rewrite (in_operator_array (lit "tokenBalance") elements eq_refl).
  reflexivity.
Qed.

Lemma has_own_app (key : jsstring) (a b : list (jsstring * value)) :
  has_own key (a ++ b) = has_own key a || has_own key b.
Proof. unfold has_own, mem. rewrite map_app. apply existsb_app. Qed.

Lemma isTokenTransfersResponse_object (props : list (jsstring * value)) :
  isTokenTransfersResponse (VObject props) = Normal (has_own (lit "transfers") props).
Proof.
  unfold isTokenTransfersResponse, in_operator.
  change (mem (lit "transfers") Object_prototype_keys) with false.
  rewrite orb_false_r. reflexivity.
Qed.

Lemma isTokenBalanceResponse_object (props : list (jsstring * value)) :
  isTokenBalanceResponse (VObject props) = Normal (has_own (lit "tokenBalance") props).
Proof.
  unfold isTokenBalanceResponse, in_operator.
  change (mem (lit "tokenBalance") Object_prototype_keys) with false.
  rewrite orb_false_r. reflexivity.
Qed.

Lemma isApiError_object (props : list (jsstring * value)) :
  isApiError (VObject props)
  = Normal (has_own (lit "error") props && has_own (lit "message") props
            && has_own (lit "status") props).
Proof. apply isApiError_spec. Qed.

(** X9: on an object the classifiers look at the keys only: two objects
    with the same keys are classified alike whatever the values are, and
    further properties, before or after the others, never turn an answer from
    [true] to [false].  So the classifiers are not mutually exclusive on
    arbitrary objects: an error payload that also has a [transfers] key is
    accepted by [isApiError] and by [isTokenTransfersResponse]. *)
Theorem X9_classifiers_look_at_keys_only (props : list (jsstring * value)) :
  (forall props', map fst props = map fst props' ->
                  classify (VObject props) = classify (VObject props'))
  /\ (forall extra,
        (isApiError (VObject props) = Normal true ->
         isApiError (VObject (extra ++ props)) = Normal true
         /\ isApiError (VObject (props ++ extra)) = Normal true)
        /\ (isTokenTransfersResponse (VObject props) = Normal true ->
            isTokenTransfersResponse (VObject (extra ++ props)) = Normal true
            /\ isTokenTransfersResponse (VObject (props ++ extra)) = Normal true)
        /\ (isTokenBalanceResponse (VObject props) = Normal true ->
            isTokenBalanceResponse (VObject (extra ++ props)) = Normal true
            /\ isTokenBalanceResponse (VObject (props ++ extra)) = Normal true))
  /\ (forall transfers,
        isApiError (VObject props) = Normal true ->
        classify (VObject ((lit "transfers", transfers) :: props))
        = (Normal true, Normal true,
           Normal (has_own (lit "tokenBalance") props))).
Proof.
  split; [|split].
  - intros props' Hkeys. unfold classify.
    rewrite !isApiError_object, !isTokenTransfersResponse_object,
      !isTokenBalanceResponse_object.
    unfold has_own. rewrite Hkeys. reflexivity.
  - intros extra.
    rewrite !isApiError_object, !isTokenTransfersResponse_object,
      !isTokenBalanceResponse_object, !has_own_app.
    split; [|split]; intros [= H].
    + apply andb_true_iff in H as [H Hs]. apply andb_true_iff in H as [He Hm].
      rewrite He, Hm, Hs, !orb_true_r. split; reflexivity.
    + rewrite H, !orb_true_r. split; reflexivity.
    + rewrite H, !orb_true_r. split; reflexivity.
  - intros transfers. unfold classify.
    change ((lit "transfers", transfers) :: props)
      with ([(lit "transfers", transfers)] ++ props).
    rewrite !isApiError_object, !isTokenTransfersResponse_object,
      !isTokenBalanceResponse_object, !has_own_app.
    change (has_own (lit "error") [(lit "transfers", transfers)]) with false.
    change (has_own (lit "message") [(lit "transfers", transfers)]) with false.
    change (has_own (lit "status") [(lit "transfers", transfers)]) with false.
    change (has_own (lit "transfers") [(lit "transfers", transfers)]) with true.
    change (has_own (lit "tokenBalance") [(lit "transfers", transfers)]) with false.
    cbn [orb]. intros [= H]. rewrite H. reflexivity.
Qed.

Lemma X9_witness_error_with_transfers :
  isApiError Tests.address_not_found = Normal true
  /\ classify (VObject ((lit "transfers", VArray []) ::
                        [(lit "error", VString (lit "NotFound"));
                         (lit "message", VString (lit "Address not found"));
                         (lit "status", VNumber 404)]))
     = (Normal true, Normal true, Normal false)
  /\ isApiError (VObject ([(lit "requestId", VNumber 7)] ++
                          [(lit "error", VString (lit "NotFound"));
                           (lit "message", VString (lit "Address not found"));
                           (lit "status", VNumber 404)]))
     = Normal true.
Proof.
  pose proof (X9_classifiers_look_at_keys_only
                [(lit "error", VString (lit "NotFound"));
                 (lit "message", VString (lit "Address not found"));
                 (lit "status", VNumber 404)]) as (_ & Hextra & Hboth).
  split; [reflexivity|]. split.
  - apply (Hboth (VArray [])). reflexivity.
  - apply (proj1 (Hextra [(lit "requestId", VNumber 7)])). reflexivity.
Defined.

(** ** The life of a request *)

Lemma step_settled (s : request_state) (ev : event) (result : outcome) :
  current s = Settled result -> timer_pending s = false -> step s ev = s.
Proof.
  intros Hc Hp. unfold step. rewrite Hc, Hp.
  destruct ev as [|[response|error]|[data|error]]; reflexivity.
Qed.

Lemma run_settled (s : request_state) (evs : list event) (result : outcome) :
  current s = Settled result -> timer_pending s = false -> run s evs = s.
Proof.
  intros Hc Hp. induction evs as [|ev evs IH]; [reflexivity|].
  simpl. rewrite (step_settled s ev result Hc Hp). exact IH.
Qed.

Lemma run_snoc (s : request_state) (evs : list event) (ev : event) :
  run s (evs ++ [ev]) = step (run s evs) ev.
Proof. rewrite run_app. reflexivity. Qed.

(** X10: once an operation has settled, nothing that happens later changes
    anything: a timer that comes due or a transport promise that settles
    afterwards leaves the result, the abort signal and the cleared timer as
    they are. *)
Theorem X10_settled_request_is_final (this : WdkIndexerClient) (op : operation)
    (s : request_state) (evs later : list event) (result : outcome) :
  invoke this op = Normal s ->
  observe (Normal s) evs = Some result ->
  run s (evs ++ later) = run s evs
  /\ observe (Normal s) (evs ++ later) = Some result.
Proof.
  intros Hop Hobs.
  apply invoke_started in Hop as (method & path & options & ->).
  unfold observe in Hobs.
  destruct (current (run (_request this method path options) evs)) as [| |r] eqn:Hc;
    try discriminate.
  injection Hobs as ->.
  destruct (_request_releases_timer this method path options evs result Hc) as [_ Hp].
  assert (Hrun : run (_request this method path options) (evs ++ later)
                 = run (_request this method path options) evs).
  { rewrite run_app. apply (run_settled _ _ result Hc Hp). }
  split; [exact Hrun|]. unfold observe. rewrite Hrun, Hc. reflexivity.
Qed.

Lemma X10_witness_late_timer :
  invoke Tests.client Health = Normal Tests.health_request
  /\ observe (Normal Tests.health_request)
       [FetchSettles (Rejected (ThrowError Tests.connection_refused))]
     = Some (Raised (ThrowSdk (WdkIndexerNetworkError (lit "Connection refused")
                                 (Some Tests.connection_refused))))
  /\ signal_aborted
       (run Tests.health_request
          ([FetchSettles (Rejected (ThrowError Tests.connection_refused))]
           ++ [TimerFires; FetchSettles (Fulfilled Tests.ok_response)]))
     = false.
Proof.
  split; [reflexivity|]. split; [reflexivity|].
  rewrite (proj1 (X10_settled_request_is_final Tests.client Health Tests.health_request
                    [FetchSettles (Rejected (ThrowError Tests.connection_refused))]
                    [TimerFires; FetchSettles (Fulfilled Tests.ok_response)]
                    _ eq_refl eq_refl)).
  reflexivity.
Defined.

Lemma step_signal_aborted (s : request_state) (ev : event) :
  signal_aborted (step s ev) = true ->
  signal_aborted s = true \/ (ev = TimerFires /\ timer_pending s = true).
Proof.
  step_cases s ev; intros H; try (left; exact H); right; split; reflexivity.
Qed.

Lemma signal_aborted_origin (this : WdkIndexerClient) (method : http_method)
    (path : jsstring) (options : option request_options) (evs : list event) :
  signal_aborted (run (_request this method path options) evs) = true ->
  exists before after,
    evs = before ++ TimerFires :: after
    /\ is_pending (current (run (_request this method path options) before)) = true.
Proof.
  induction evs as [|ev l IH] using rev_ind; [discriminate|].
  rewrite run_snoc. intros H.
  apply step_signal_aborted in H as [H | [-> Hp]].
  - destruct (IH H) as (before & after & -> & Hpending).
    exists before, (after ++ [ev]). split; [|exact Hpending].
    rewrite <- app_assoc. reflexivity.
  - exists l, []. split; [reflexivity|].
    destruct (current (run (_request this method path options) l)) eqn:Hc;
      try reflexivity.
    destruct (_request_releases_timer this method path options l _ Hc) as [_ Hq].
    congruence.
Qed.

Lemma signal_not_aborted_without_timer (this : WdkIndexerClient)
    (method : http_method) (path : jsstring) (options : option request_options)
    (evs : list event) :
  ~ In TimerFires evs ->
  signal_aborted (run (_request this method path options) evs) = false.
Proof.
  intros Hnot. destruct (signal_aborted (run _ evs)) eqn:E; [|reflexivity].
  exfalso. destruct (signal_aborted_origin _ _ _ _ _ E) as (before & after & -> & _).
  apply Hnot, in_or_app. right. left. reflexivity.
Qed.

(** X11: the abort signal handed to the transport is aborted by the timer
    only, and only by a timer that comes due while the operation is still
    pending; without the timer the signal is never aborted. *)
Theorem X11_abort_comes_from_the_timer_only (this : WdkIndexerClient)
    (op : operation) (s : request_state) (evs : list event) :
  invoke this op = Normal s ->
  (signal_aborted (run s evs) = true ->
   exists before after,
     evs = before ++ TimerFires :: after
     /\ is_pending (current (run s before)) = true)
  /\ (~ In TimerFires evs -> signal_aborted (run s evs) = false).
Proof.
  intros Hop. apply invoke_started in Hop as (method & path & options & ->).
  split; [apply signal_aborted_origin | apply signal_not_aborted_without_timer].
Qed.

Lemma X11_witness_timer_then_abort :
  invoke Tests.client Health = Normal Tests.health_request
  /\ signal_aborted (run Tests.health_request [TimerFires]) = true
  /\ (exists before after,
        [TimerFires] = before ++ TimerFires :: after
        /\ is_pending (current (run Tests.health_request before)) = true)
  /\ ~ In TimerFires [FetchSettles (Fulfilled Tests.ok_response)]
  /\ signal_aborted (run Tests.health_request [FetchSettles (Fulfilled Tests.ok_response)])
     = false.
Proof.
  pose proof (X11_abort_comes_from_the_timer_only Tests.client Health
                Tests.health_request [TimerFires] eq_refl) as [Hfired _].
  pose proof (X11_abort_comes_from_the_timer_only Tests.client Health
                Tests.health_request [FetchSettles (Fulfilled Tests.ok_response)]
                eq_refl) as [_ Hquiet].
  assert (Hnot : ~ In TimerFires [FetchSettles (Fulfilled Tests.ok_response)]).
  { intros [H|[]]. discriminate H. }
  split; [reflexivity|]. split; [reflexivity|].
  split; [apply Hfired; reflexivity|].
  split; [exact Hnot | apply Hquiet; exact Hnot].
Defined.

Lemma step_awaiting_fetch (s : request_state) (ev : event) :
  current s = AwaitingFetch -> is_fetch_settlement ev = false ->
  current (step s ev) = AwaitingFetch.
Proof.
  intros Hc Hev. unfold step. rewrite Hc.
  destruct ev as [|r|[data|error]]; try discriminate; simpl;
    try destruct (timer_pending s); simpl; exact Hc || reflexivity.
Qed.

(** X12: an operation settles only after the transport call has settled:
    as long as the promise of the transport call is pending, the operation is
    pending, however often and whenever the timer comes due.  The timeout by
    itself never ends an operation. *)
Theorem X12_pending_until_the_transport_settles (this : WdkIndexerClient)
    (op : operation) (s : request_state) (evs : list event) :
  invoke this op = Normal s ->
  existsb is_fetch_settlement evs = false ->
  observe (Normal s) evs = None
  /\ current (run s evs) = AwaitingFetch.
Proof.
  intros Hop. apply invoke_started in Hop as (method & path & options & ->).
  intros Hevs.
  assert (Hc : current (run (_request this method path options) evs) = AwaitingFetch).
  { induction evs as [|ev evs IH] using rev_ind; [reflexivity|].
    rewrite existsb_app in Hevs. apply orb_false_iff in Hevs as [Hl Hev].
    simpl in Hev. rewrite orb_false_r in Hev.
    rewrite run_snoc. apply step_awaiting_fetch; [apply IH; exact Hl | exact Hev]. }
  split; [|exact Hc]. unfold observe. rewrite Hc. reflexivity.
Qed.

Lemma X12_witness_timer_only :
  invoke Tests.client Health = Normal Tests.health_request
  /\ existsb is_fetch_settlement [TimerFires; TimerFires] = false
  /\ observe (Normal Tests.health_request) [TimerFires; TimerFires] = None.
Proof.
  split; [reflexivity|]. split; [reflexivity|].
  apply (X12_pending_until_the_transport_settles Tests.client Health
           Tests.health_request [TimerFires; TimerFires] eq_refl eq_refl).
Defined.

(** ** Where a result comes from *)

Lemma after_json_returns (response : Response) (data v : value) :
  after_json response data = Normal v -> ok response = true /\ v = data.
Proof.
  unfold after_json. destruct (ok response); simpl.
  - intros [= <-]. split; reflexivity.
  - rewrite isApiError_spec. cbn [bind].
    destruct (is_ApiErrorPayload data).
    + destruct (new_WdkIndexerApiError data); cbn [bind]; discriminate.
    + discriminate.
Qed.

Lemma catch_clause_ApiError (ms : Z) (error : thrown) :
  is_ApiError (catch_clause ms error) = true ->
  instanceof_WdkIndexerError error = true.
Proof.
  destruct error as [e|e|v]; simpl; try reflexivity; try discriminate.
  destruct (jsstring_eqb _ _); discriminate.
Qed.

(** What the history of a request started by [_request] says about its
    stage. *)
Lemma run_provenance (s0 : request_state) (evs : list event) :
  current s0 = AwaitingFetch ->
  (forall response,
      current (run s0 evs) = AwaitingJson response ->
      In (FetchSettles (Fulfilled response)) evs)
  /\ (forall data,
      current (run s0 evs) = Settled (Returned data) ->
      exists response,
        ok response = true /\ In (FetchSettles (Fulfilled response)) evs
        /\ In (JsonSettles (Fulfilled data)) evs)
  /\ (forall t,
      current (run s0 evs) = Settled (Raised t) -> is_ApiError t = true ->
      existsb rejects_with_sdk_error evs = true
      \/ exists response,
           ok response = false /\ In (FetchSettles (Fulfilled response)) evs).
Proof.
  intros H0. induction evs as [|ev evs (IHj & IHr & IHa)] using rev_ind.
  - simpl. rewrite H0. repeat split; intros; discriminate.
  - rewrite run_snoc. rewrite existsb_app.
    assert (Hin : forall x, In x evs -> In x (evs ++ [ev]))
      by (intros x Hx; apply in_or_app; left; exact Hx).
    assert (Hlast : In ev (evs ++ [ev]))
      by (apply in_or_app; right; left; reflexivity).
    assert (Hkeep :
      current (step (run s0 evs) ev) = current (run s0 evs) ->
      (forall response,
          current (step (run s0 evs) ev) = AwaitingJson response ->
          In (FetchSettles (Fulfilled response)) (evs ++ [ev]))
      /\ (forall data,
          current (step (run s0 evs) ev) = Settled (Returned data) ->
          exists response,
            ok response = true /\ In (FetchSettles (Fulfilled response)) (evs ++ [ev])
            /\ In (JsonSettles (Fulfilled data)) (evs ++ [ev]))
      /\ (forall t,
          current (step (run s0 evs) ev) = Settled (Raised t) -> is_ApiError t = true ->
          existsb rejects_with_sdk_error evs || existsb rejects_with_sdk_error [ev] = true
          \/ exists response,
               ok response = false
               /\ In (FetchSettles (Fulfilled response)) (evs ++ [ev]))).
    { intros ->. split; [|split].
      - intros response H. apply Hin, IHj, H.
      - intros data H. destruct (IHr data H) as (r & Hok & Hf & Hj).
        exists r. split; [exact Hok|]. split; apply Hin; assumption.
      - intros t H Ht. destruct (IHa t H Ht) as [Hs | (r & Hok & Hf)].
        + left. rewrite Hs. reflexivity.
        + right. exists r. split; [exact Hok | apply Hin; exact Hf]. }
    remember (run s0 evs) as s eqn:Hs.
    destruct ev as [|[response|error]|[data|error]];
      destruct (current s) as [|response0|result] eqn:Hstage;
      try (apply Hkeep; unfold step; rewrite ?Hstage;
           try destruct (timer_pending s); simpl;
           first [exact Hstage | reflexivity]).
    + (* the transport call is fulfilled *)
      unfold step. rewrite Hstage. simpl. split; [|split].
      * intros r [= <-]. exact Hlast.
      * intros d H. discriminate.
      * intros t H. discriminate.
    + (* the transport call is rejected *)
      unfold step. rewrite Hstage. simpl. split; [|split].
      * intros r H. discriminate.
      * intros d H. discriminate.
      * intros t [= <-] Ht. left. apply catch_clause_ApiError in Ht.
        simpl. rewrite Ht. rewrite !orb_true_r. reflexivity.
    + (* the body is parsed *)
      unfold step. rewrite Hstage. simpl. split; [|split].
      * intros r H. discriminate.
      * intros d H. unfold try_result in H.
        destruct (after_json response0 data) as [v|t] eqn:E; [|discriminate].
        injection H as <-. apply after_json_returns in E as [Hok ->].
        exists response0. split; [exact Hok|]. split; [|exact Hlast].
        apply Hin, IHj. reflexivity.
      * intros t H Ht. right. exists response0. split.
        { unfold try_result in H.
          destruct (after_json response0 data) as [v|t0] eqn:E; [discriminate|].
          destruct (ok response0) eqn:Hok; [|reflexivity].
          unfold after_json in E. rewrite Hok in E. discriminate. }
        apply Hin, IHj. reflexivity.
    + (* the reading of the body is rejected *)
      unfold step. rewrite Hstage. simpl. split; [|split].
      * intros r H. discriminate.
      * intros d H. discriminate.
      * intros t [= <-] Ht. left. apply catch_clause_ApiError in Ht.
        simpl. rewrite Ht. rewrite !orb_true_r. reflexivity.
Qed.

(** X13: an operation returns a value only when the transport has resolved
    with a success response and [response.json()] has resolved with exactly
    that value: the body of a non-success response is never returned, and
    nothing is returned that the body read did not give. *)
Theorem X13_returned_data_comes_from_a_success_response (this : WdkIndexerClient)
    (op : operation) (s : request_state) (evs : list event) (data : value) :
  invoke this op = Normal s ->
  observe (Normal s) evs = Some (Returned data) ->
  exists response,
    ok response = true
    /\ In (FetchSettles (Fulfilled response)) evs
    /\ In (JsonSettles (Fulfilled data)) evs.
Proof.
  intros Hop Hobs. apply invoke_started in Hop as (method & path & options & ->).
  unfold observe in Hobs.
  destruct (current (run _ evs)) as [| |result] eqn:Hc; try discriminate.
  injection Hobs as ->.
  apply (proj1 (proj2 (run_provenance (_request this method path options) evs eq_refl))
           data Hc).
Qed.

Lemma X13_witness_health_ok :
  invoke Tests.client Health = Normal Tests.health_request
  /\ observe (Normal Tests.health_request)
       [FetchSettles (Fulfilled Tests.ok_response); JsonSettles (Fulfilled VNull)]
     = Some (Returned VNull)
  /\ exists response,
       ok response = true
       /\ In (FetchSettles (Fulfilled response))
            [FetchSettles (Fulfilled Tests.ok_response); JsonSettles (Fulfilled VNull)]
       /\ In (JsonSettles (Fulfilled VNull))
            [FetchSettles (Fulfilled Tests.ok_response); JsonSettles (Fulfilled VNull)].
Proof.
  split; [reflexivity|]. split; [reflexivity|].
  apply (X13_returned_data_comes_from_a_success_response Tests.client Health
           Tests.health_request
           [FetchSettles (Fulfilled Tests.ok_response); JsonSettles (Fulfilled VNull)]
           VNull eq_refl eq_refl).
Defined.

(** X14: an operation fails with an ApiError only when the transport has
    resolved with a non-success response, unless the transport itself
    rejected with an SDK error (which is re-raised): a transport failure or a
    timeout is never reported as an ApiError. *)
Theorem X14_ApiError_comes_from_a_failed_response (this : WdkIndexerClient)
    (op : operation) (s : request_state) (evs : list event) (t : thrown) :
  invoke this op = Normal s ->
  existsb rejects_with_sdk_error evs = false ->
  observe (Normal s) evs = Some (Raised t) ->
  is_ApiError t = true ->
  exists response,
    ok response = false /\ In (FetchSettles (Fulfilled response)) evs.
Proof.
  intros Hop Hsdk Hobs Ht.
  apply invoke_started in Hop as (method & path & options & ->).
  unfold observe in Hobs.
  destruct (current (run _ evs)) as [| |result] eqn:Hc; try discriminate.
  injection Hobs as ->.
  destruct (proj2 (proj2 (run_provenance (_request this method path options) evs
                             eq_refl)) t Hc Ht) as [H|H];
    [congruence | exact H].
Qed.

Lemma X14_witness_unauthorized :
  invoke Tests.client Health = Normal Tests.health_request
  /\ existsb rejects_with_sdk_error
       [FetchSettles (Fulfilled Tests.unauthorized_response);
        JsonSettles (Fulfilled Tests.unauthorized)] = false
  /\ observe (Normal Tests.health_request)
       [FetchSettles (Fulfilled Tests.unauthorized_response);
        JsonSettles (Fulfilled Tests.unauthorized)]
     = Some (Raised (ThrowSdk (WdkIndexerApiError (lit "Invalid API key") (VNumber 401)
                                 (VString (lit "Unauthorized")))))
  /\ exists response,
       ok response = false
       /\ In (FetchSettles (Fulfilled response))
            [FetchSettles (Fulfilled Tests.unauthorized_response);
             JsonSettles (Fulfilled Tests.unauthorized)].
Proof.
  split; [reflexivity|]. split; [reflexivity|]. split; [reflexivity|].
  apply (X14_ApiError_comes_from_a_failed_response Tests.client Health
           Tests.health_request
           [FetchSettles (Fulfilled Tests.unauthorized_response);
            JsonSettles (Fulfilled Tests.unauthorized)]
           _ eq_refl eq_refl eq_refl eq_refl).
Defined.

Lemma run_awaiting_json (s : request_state) (evs : list event)
    (response : Response) :
  current s = AwaitingJson response ->
  existsb is_json_settlement evs = false ->
  current (run s evs) = AwaitingJson response.
Proof.
  revert s. induction evs as [|ev evs IH]; intros s Hc Hevs; [exact Hc|].
  simpl in Hevs. apply orb_false_iff in Hevs as [Hev Hrest].
  simpl. apply IH; [|exact Hrest].
  unfold step. rewrite Hc.
  destruct ev as [|[r|error]|r]; try discriminate; simpl;
    try destruct (timer_pending s); simpl; exact Hc || reflexivity.
Qed.

Lemma run_awaiting_fetch (s : request_state) (evs : list event) :
  current s = AwaitingFetch ->
  existsb is_fetch_settlement evs = false ->
  current (run s evs) = AwaitingFetch.
Proof.
  revert s. induction evs as [|ev evs IH]; intros s Hc Hevs; [exact Hc|].
  simpl in Hevs. apply orb_false_iff in Hevs as [Hev Hrest].
  simpl. apply IH; [|exact Hrest]. apply step_awaiting_fetch; assumption.
Qed.

(** X15: every operation returns the parsed body of a success response as
    it is, whatever value it is ([null], a number, an object of another
    shape), and whatever the timer does meanwhile: a timeout that comes due
    while the transport call or the body read is pending does not keep a
    success response from being returned when the transport goes on to
    deliver it. *)
Theorem X15_success_body_is_returned_unvalidated (this : WdkIndexerClient)
    (op : operation) (s : request_state) (before between later : list event)
    (response : Response) (data : value) :
  invoke this op = Normal s ->
  existsb is_fetch_settlement before = false ->
  existsb is_json_settlement between = false ->
  ok response = true ->
  observe (Normal s)
    (before ++ FetchSettles (Fulfilled response)
       :: between ++ JsonSettles (Fulfilled data) :: later)
  = Some (Returned data).
Proof.
  intros Hop Hb Hm Hok.
  apply invoke_started in Hop as (method & path & options & ->).
  set (s0 := _request this method path options).
  assert (H1 : current (run s0 (before ++ [FetchSettles (Fulfilled response)]))
               = AwaitingJson response).
  { rewrite run_snoc. unfold step.
    rewrite (run_awaiting_fetch s0 before eq_refl Hb). reflexivity. }
  assert (H2 : current (run s0 ((before ++ [FetchSettles (Fulfilled response)])
                                  ++ between))
               = AwaitingJson response).
  { rewrite run_app. apply run_awaiting_json; assumption. }
  pose proof (observe_success s0 _ response data H2 Hok) as H3.
  replace (before ++ FetchSettles (Fulfilled response)
             :: between ++ JsonSettles (Fulfilled data) :: later)
    with ((((before ++ [FetchSettles (Fulfilled response)]) ++ between)
             ++ [JsonSettles (Fulfilled data)]) ++ later)
    by (rewrite <- !app_assoc; reflexivity).
  unfold observe in *. rewrite run_app.
  destruct (current (run s0 (((before ++ [FetchSettles (Fulfilled response)])
                               ++ between) ++ [JsonSettles (Fulfilled data)])))
    as [| |result] eqn:Hc; try discriminate.
  injection H3 as ->.
  destruct (_request_releases_timer this method path options _ _ Hc) as [_ Hq].
  rewrite (run_settled _ later _ Hc Hq). rewrite Hc. reflexivity.
Qed.

Lemma X15_witness_balance_null :
  invoke Tests.client (GetTokenBalance (lit "ethereum") (lit "usdt") (lit "0x1234"))
  = Normal (_request Tests.client GET
              (lit "/api/v1/ethereum/usdt/0x1234/token-balances") None)
  /\ existsb is_fetch_settlement [TimerFires] = false
  /\ existsb is_json_settlement [TimerFires] = false
  /\ ok Tests.ok_response = true
  /\ observe (Normal (_request Tests.client GET
                        (lit "/api/v1/ethereum/usdt/0x1234/token-balances") None))
       ([TimerFires] ++ FetchSettles (Fulfilled Tests.ok_response)
          :: [TimerFires] ++ JsonSettles (Fulfilled VNull) :: [TimerFires])
     = Some (Returned VNull).
Proof.
  split; [reflexivity|]. split; [reflexivity|]. split; [reflexivity|].
  split; [reflexivity|].
  apply (X15_success_body_is_returned_unvalidated Tests.client
           (GetTokenBalance (lit "ethereum") (lit "usdt") (lit "0x1234"))
           _ [TimerFires] [TimerFires] [TimerFires] Tests.ok_response VNull
           eq_refl eq_refl eq_refl eq_refl).
Defined.

(** ** Distinct addresses give distinct path segments *)

Lemma land_15 (n : Z) : Z.land n 15 = n mod 16.
Proof. change 15 with (Z.ones 4). rewrite Z.land_ones by lia. reflexivity. Qed.

Lemma land_63 (n : Z) : Z.land n 63 = n mod 64.
Proof. change 63 with (Z.ones 6). rewrite Z.land_ones by lia. reflexivity. Qed.

Lemma hex_digit_inj (x y : Z) : hex_digit x = hex_digit y -> x mod 16 = y mod 16.
Proof.
  unfold hex_digit. rewrite !land_15.
  pose proof (Z.mod_pos_bound x 16 eq_refl) as Hx.
  pose proof (Z.mod_pos_bound y 16 eq_refl) as Hy.
  assert (Hnth : forall i j : nat,
             (i < 16)%nat -> (j < 16)%nat ->
             nth i (lit "0123456789ABCDEF") 48 = nth j (lit "0123456789ABCDEF") 48 ->
             i = j).
  { intros i j Hi Hj.
    do 16 (destruct i as [|i];
           [do 16 (destruct j as [|j];
                   [simpl; intros H; first [reflexivity | discriminate H]|]); lia|]).
    lia. }
  intros H. apply Hnth in H; lia.
Qed.

Lemma percent_octet_peel (b1 b2 : Z) (t1 t2 : jsstring) :
  0 <= b1 < 256 -> 0 <= b2 < 256 ->
  percent_octet b1 ++ t1 = percent_octet b2 ++ t2 -> b1 = b2 /\ t1 = t2.
Proof.
  intros H1 H2. unfold percent_octet. cbn [Datatypes.app].
  intros [= Hhi Hlo Ht]. split; [|exact Ht].
  apply hex_digit_inj in Hhi. apply hex_digit_inj in Hlo.
  rewrite !Z.shiftr_div_pow2 in Hhi by lia. change (2 ^ 4) with 16 in Hhi.
  Z.div_mod_to_equations. lia.
Qed.

Lemma lor_128 (x : Z) : 0 <= x < 64 -> Z.lor 128 x = 128 + x.
Proof.
  intros H. rewrite <- (Z2Nat.id x) by lia.
  assert (Hn : (Z.to_nat x < 64)%nat) by lia. revert Hn.
  generalize (Z.to_nat x). intros n Hn.
  do 64 (destruct n as [|n]; [reflexivity|]). lia.
Qed.

Lemma lor_192 (x : Z) : 0 <= x < 32 -> Z.lor 192 x = 192 + x.
Proof.
  intros H. rewrite <- (Z2Nat.id x) by lia.
  assert (Hn : (Z.to_nat x < 32)%nat) by lia. revert Hn.
  generalize (Z.to_nat x). intros n Hn.
  do 32 (destruct n as [|n]; [reflexivity|]). lia.
Qed.

Lemma lor_224 (x : Z) : 0 <= x < 16 -> Z.lor 224 x = 224 + x.
Proof.
  intros H. rewrite <- (Z2Nat.id x) by lia.
  assert (Hn : (Z.to_nat x < 16)%nat) by lia. revert Hn.
  generalize (Z.to_nat x). intros n Hn.
  do 16 (destruct n as [|n]; [reflexivity|]). lia.
Qed.

Lemma lor_240 (x : Z) : 0 <= x < 8 -> Z.lor 240 x = 240 + x.
Proof.
  intros H. rewrite <- (Z2Nat.id x) by lia.
  assert (Hn : (Z.to_nat x < 8)%nat) by lia. revert Hn.
  generalize (Z.to_nat x). intros n Hn.
  do 8 (destruct n as [|n]; [reflexivity|]). lia.
Qed.

(** The octets of the UTF-8 form, written with division and remainder. *)
Lemma utf8_encode_octets (cp : Z) :
  0 <= cp < 1114112 ->
  utf8_encode cp
  = if cp <? 128 then [cp]
    else if cp <? 2048 then [192 + cp / 64; 128 + cp mod 64]
    else if cp <? 65536 then
      [224 + cp / 4096; 128 + (cp / 64) mod 64; 128 + cp mod 64]
    else
      [240 + cp / 262144; 128 + (cp / 4096) mod 64; 128 + (cp / 64) mod 64;
       128 + cp mod 64].
Proof.
  intros Hcp. unfold utf8_encode.
  rewrite !land_63, !Z.shiftr_div_pow2 by lia.
  change (2 ^ 6) with 64. change (2 ^ 12) with 4096. change (2 ^ 18) with 262144.
  destruct (cp <? 128) eqn:H1; [reflexivity|].
  apply Z.ltb_ge in H1.
  assert (Hlow : forall y, Z.lor 128 (y mod 64) = 128 + y mod 64).
  { intros y. apply lor_128. apply Z.mod_pos_bound. lia. }
  rewrite !Hlow.
  destruct (cp <? 2048) eqn:H2.
  { apply Z.ltb_lt in H2. rewrite lor_192; [reflexivity|].
    Z.div_mod_to_equations. lia. }
  apply Z.ltb_ge in H2.
  destruct (cp <? 65536) eqn:H3.
  { apply Z.ltb_lt in H3. rewrite lor_224; [reflexivity|].
    Z.div_mod_to_equations. lia. }
  apply Z.ltb_ge in H3.
  rewrite lor_240; [reflexivity|]. Z.div_mod_to_equations. lia.
Qed.

Lemma percent_octets_cons (b : Z) (bs : list Z) (t : jsstring) :
  percent_octets (b :: bs) ++ t = percent_octet b ++ (percent_octets bs ++ t).
Proof. unfold percent_octets. cbn [flat_map]. rewrite <- app_assoc. reflexivity. Qed.

(** The escape of one code point can be read back from the front of a
    string: the first octet tells how many octets follow. *)
Lemma utf8_escape_prefix (cp1 cp2 : Z) (t1 t2 : jsstring) :
  0 <= cp1 < 1114112 -> 0 <= cp2 < 1114112 ->
  percent_octets (utf8_encode cp1) ++ t1 = percent_octets (utf8_encode cp2) ++ t2 ->
  cp1 = cp2 /\ t1 = t2.
Proof.
  intros H1 H2.
  rewrite (utf8_encode_octets cp1 H1), (utf8_encode_octets cp2 H2).
  destruct (cp1 <? 128) eqn:A1; [apply Z.ltb_lt in A1 | apply Z.ltb_ge in A1;
    destruct (cp1 <? 2048) eqn:A2; [apply Z.ltb_lt in A2 | apply Z.ltb_ge in A2;
      destruct (cp1 <? 65536) eqn:A3; [apply Z.ltb_lt in A3 | apply Z.ltb_ge in A3]]];
  (destruct (cp2 <? 128) eqn:B1; [apply Z.ltb_lt in B1 | apply Z.ltb_ge in B1;
    destruct (cp2 <? 2048) eqn:B2; [apply Z.ltb_lt in B2 | apply Z.ltb_ge in B2;
      destruct (cp2 <? 65536) eqn:B3; [apply Z.ltb_lt in B3 | apply Z.ltb_ge in B3]]]);
  rewrite !percent_octets_cons; intros H;
  repeat match type of H with
         | percent_octet ?x ++ _ = percent_octet ?y ++ _ =>
             let E := fresh "E" in
             apply percent_octet_peel in H as [E H];
             [| Z.div_mod_to_equations; lia | Z.div_mod_to_equations; lia]
         end;
  first [ split; [Z.div_mod_to_equations; lia | exact H]
        | exfalso; Z.div_mod_to_equations; lia ].
Qed.

(** How the encoding of a non-empty string starts. *)
Lemma encodeURIComponent_cons (c : Z) (rest encoded : jsstring) :
  encodeURIComponent (c :: rest) = Normal encoded ->
  (uri_unescaped c = true
   /\ exists R, encodeURIComponent rest = Normal R /\ encoded = c :: R)
  \/ (uri_unescaped c = false /\ is_trailing_surrogate c = false
      /\ is_leading_surrogate c = false
      /\ exists R, encodeURIComponent rest = Normal R
                   /\ encoded = percent_octets (utf8_encode c) ++ R)
  \/ (uri_unescaped c = false /\ is_leading_surrogate c = true
      /\ exists second rest' R,
           rest = second :: rest' /\ is_trailing_surrogate second = true
           /\ encodeURIComponent rest' = Normal R
           /\ encoded
              = percent_octets (utf8_encode (surrogate_pair c second)) ++ R).
Proof.
  cbn [encodeURIComponent]. destruct (uri_unescaped c) eqn:Hu.
  - destruct (encodeURIComponent rest) as [R|]; simpl; [|discriminate].
    intros [= <-]. left. split; [reflexivity|]. exists R. split; reflexivity.
  - destruct (is_trailing_surrogate c) eqn:Ht; [discriminate|].
    destruct (is_leading_surrogate c) eqn:Hl.
    + destruct rest as [|second rest']; [discriminate|].
      destruct (is_trailing_surrogate second) eqn:Hs; [|discriminate].
      destruct (encodeURIComponent rest') as [R|] eqn:ER; simpl; [|discriminate].
      intros [= <-]. right. right. split; [reflexivity|]. split; [reflexivity|].
      exists second, rest', R. repeat split; assumption || reflexivity.
    + destruct (encodeURIComponent rest) as [R|]; simpl; [|discriminate].
      intros [= <-]. right. left. repeat split; try reflexivity.
      exists R. split; reflexivity.
Qed.

Lemma escape_starts_with_percent (cp : Z) (t : jsstring) :
  exists tail, percent_octets (utf8_encode cp) ++ t = 37 :: tail.
Proof.
  unfold utf8_encode.
  destruct (cp <? 128); [eexists; reflexivity|].
  destruct (cp <? 2048); [eexists; reflexivity|].
  destruct (cp <? 65536); eexists; reflexivity.
Qed.

Lemma surrogate_ranges (lead trail : Z) :
  is_leading_surrogate lead = true -> is_trailing_surrogate trail = true ->
  55296 <= lead <= 56319 /\ 56320 <= trail <= 57343
  /\ 65536 <= surrogate_pair lead trail < 1114112.
Proof.
  unfold is_leading_surrogate, is_trailing_surrogate, surrogate_pair.
  rewrite !andb_true_iff, !Z.leb_le. lia.
Qed.

Lemma encodeURIComponent_injective_bounded (n : nat) :
  forall a b encoded,
    (List.length a <= n)%nat ->
    forallb is_code_unit a = true -> forallb is_code_unit b = true ->
    encodeURIComponent a = Normal encoded ->
    encodeURIComponent b = Normal encoded ->
    a = b.
Proof.
  induction n as [|n IH]; intros a b encoded Hlen Ha Hb Ea Eb.
  - destruct a; [|simpl in Hlen; lia]. injection Ea as <-.
    destruct b as [|d rb]; [reflexivity|]. exfalso.
    apply encodeURIComponent_cons in Eb
      as [(_ & R & _ & E) | [(_ & _ & _ & R & _ & E) | (_ & _ & s & r & R & _ & _ & _ & E)]];
      try discriminate E;
      match type of E with
      | [] = percent_octets (utf8_encode ?cp) ++ ?t =>
          destruct (escape_starts_with_percent cp t) as [tail Ht];
          rewrite Ht in E; discriminate E
      end.
  - destruct a as [|c rest].
    { injection Ea as <-.
      destruct b as [|d rb]; [reflexivity|]. exfalso.
      apply encodeURIComponent_cons in Eb
        as [(_ & R & _ & E) | [(_ & _ & _ & R & _ & E) | (_ & _ & s & r & R & _ & _ & _ & E)]];
        try discriminate E;
        match type of E with
        | [] = percent_octets (utf8_encode ?cp) ++ ?t =>
            destruct (escape_starts_with_percent cp t) as [tail Ht];
            rewrite Ht in E; discriminate E
        end. }
    destruct b as [|d rb].
    { exfalso. injection Eb as <-.
      apply encodeURIComponent_cons in Ea
        as [(_ & R & _ & E) | [(_ & _ & _ & R & _ & E) | (_ & _ & s & r & R & _ & _ & _ & E)]];
        try discriminate E;
        match type of E with
        | [] = percent_octets (utf8_encode ?cp) ++ ?t =>
            destruct (escape_starts_with_percent cp t) as [tail Ht];
            rewrite Ht in E; discriminate E
        end. }
    cbn [forallb] in Ha, Hb.
    apply andb_true_iff in Ha as [Hc Ha]. apply andb_true_iff in Hb as [Hd Hb].
    unfold is_code_unit in Hc, Hd.
    apply andb_true_iff in Hc as [Hc0 Hc1]. apply andb_true_iff in Hd as [Hd0 Hd1].
    apply Z.leb_le in Hc0, Hd0. apply Z.ltb_lt in Hc1, Hd1.
    simpl in Hlen.
    apply encodeURIComponent_cons in Ea
      as [(Ua & Ra & Era & ->)
         | [(Ua & Ta & La & Ra & Era & ->)
           | (Ua & La & sa & resta & Ra & -> & Tsa & Era & ->)]];
    apply encodeURIComponent_cons in Eb
      as [(Ub & Rb & Erb & E)
         | [(Ub & Tb & Lb & Rb & Erb & E)
           | (Ub & Lb & sb & restb & Rb & -> & Tsb & Erb & E)]].
    + (* unescaped, unescaped *)
      injection E as -> ->.
      f_equal. apply (IH rest rb Rb); try assumption; lia.
    + (* unescaped, escaped *)
      exfalso. destruct (escape_starts_with_percent d Rb) as [tail Ht].
      rewrite Ht in E. injection E as -> _. discriminate Ua.
    + exfalso. destruct (escape_starts_with_percent (surrogate_pair d sb) Rb)
        as [tail Ht].
      rewrite Ht in E. injection E as -> _. discriminate Ua.
    + (* escaped, unescaped *)
      exfalso. destruct (escape_starts_with_percent c Ra) as [tail Ht].
      rewrite Ht in E. injection E as <- _. discriminate Ub.
    + (* escaped, escaped *)
      apply utf8_escape_prefix in E as [-> ->]; try lia.
      f_equal. apply (IH rest rb Rb); try assumption; lia.
    + (* escaped, pair *)
      exfalso. destruct (surrogate_ranges d sb Lb Tsb) as (_ & _ & Hp).
      apply utf8_escape_prefix in E as [E _]; lia.
    + (* pair, unescaped *)
      exfalso. destruct (escape_starts_with_percent (surrogate_pair c sa) Ra)
        as [tail Ht].
      rewrite Ht in E. injection E as <- _. discriminate Ub.
    + (* pair, escaped *)
      exfalso. destruct (surrogate_ranges c sa La Tsa) as (_ & _ & Hp).
      apply utf8_escape_prefix in E as [E _]; lia.
    + (* pair, pair *)
      destruct (surrogate_ranges c sa La Tsa) as (Hl1 & Ht1 & Hp1).
      destruct (surrogate_ranges d sb Lb Tsb) as (Hl2 & Ht2 & Hp2).
      apply utf8_escape_prefix in E as [E ->]; try lia.
      unfold surrogate_pair in E.
      assert (c = d /\ sa = sb) as [-> ->] by lia.
      cbn [forallb] in Ha, Hb.
      apply andb_true_iff in Ha as [_ Ha]. apply andb_true_iff in Hb as [_ Hb].
      simpl in Hlen.
      do 2 f_equal. apply (IH resta restb Rb); try assumption; lia.
Qed.

(** X16: on strings of 16-bit code units [encodeURIComponent] is injective:
    two addresses that are encoded to the same path segment are the same
    address, so [getTokenBalance] never sends two different addresses to the
    same URL. *)
Theorem X16_encoded_address_determines_address (a b : jsstring) :
  forallb is_code_unit a = true -> forallb is_code_unit b = true ->
  (forall encoded,
      encodeURIComponent a = Normal encoded ->
      encodeURIComponent b = Normal encoded -> a = b)
  /\ (forall this blockchain token sa sb,
      getTokenBalance this blockchain token a = Normal sa ->
      getTokenBalance this blockchain token b = Normal sb ->
      call_url sa = call_url sb -> a = b).
Proof.
  intros Ha Hb.
  assert (Hinj : forall encoded,
             encodeURIComponent a = Normal encoded ->
             encodeURIComponent b = Normal encoded -> a = b).
  { intros encoded Ea Eb.
    apply (encodeURIComponent_injective_bounded (List.length a) a b encoded);
      try assumption; lia. }
  split; [exact Hinj|].
  intros this blockchain token sa sb. unfold getTokenBalance.
  destruct (encodeURIComponent a) as [ea|] eqn:Ea; [|discriminate].
  destruct (encodeURIComponent b) as [eb|] eqn:Eb; [|discriminate].
  simpl. intros [= <-] [= <-]. unfold _request, request_url, address_path.
  cbn [call_url]. intros H.
  apply app_inv_head in H. apply (app_inv_head (lit "/api/v1/")) in H.
  apply app_inv_head in H. apply (app_inv_head (lit "/")) in H.
  apply app_inv_head in H. apply (app_inv_head (lit "/")) in H.
  apply app_inv_tail in H. subst eb.
  apply (Hinj ea); reflexivity.
Qed.

Lemma X16_witness_slash_address :
  forallb is_code_unit (lit "0x1234/5678") = true
  /\ encodeURIComponent (lit "0x1234/5678") = Normal (lit "0x1234%2F5678")
  /\ lit "0x1234/5678" = lit "0x1234/5678".
Proof.
  split; [reflexivity|]. split; [reflexivity|].
  apply (proj1 (X16_encoded_address_determines_address (lit "0x1234/5678")
                  (lit "0x1234/5678") eq_refl eq_refl)
               (lit "0x1234%2F5678")); reflexivity.
Defined.

(** ** A timeout error without a timeout *)

(** X17: the TimeoutError says that the transport rejected with an [Error]
    named [AbortError], not that the timeout elapsed: when the transport (or
    the body read) rejects with such an error before the timer has come due,
    the operation fails with the TimeoutError carrying the configured
    duration although the abort signal was never aborted. *)
Theorem X17_timeout_error_without_timer (this : WdkIndexerClient) (op : operation)
    (s : request_state) (evs : list event) (e : JsError) :
  invoke this op = Normal s ->
  ~ In TimerFires evs ->
  is_pending (current (run s evs)) = true ->
  err_name e = lit "AbortError" ->
  observe (Normal s) (evs ++ [rejection (current (run s evs)) (ThrowError e)])
  = Some (timed_out (timeout this))
  /\ signal_aborted (run s (evs ++ [rejection (current (run s evs)) (ThrowError e)]))
     = false.
Proof.
  intros Hop Hnot Hp He.
  apply invoke_started in Hop as (method & path & options & ->).
  split.
  - rewrite (observe_rejection _ _ _ Hp). simpl. rewrite He. reflexivity.
  - apply signal_not_aborted_without_timer. intros Hin.
    apply in_app_or in Hin as [Hin | [Hin | []]]; [exact (Hnot Hin)|].
    unfold rejection in Hin.
    destruct (current (run _ evs)); discriminate Hin.
Qed.

Lemma X17_witness_mock_abort :
  invoke Tests.client Health = Normal Tests.health_request
  /\ ~ In TimerFires (@nil event)
  /\ is_pending (current (run Tests.health_request [])) = true
  /\ err_name Tests.aborted = lit "AbortError"
  /\ observe (Normal Tests.health_request)
       ([] ++ [rejection (current (run Tests.health_request []))
                 (ThrowError Tests.aborted)])
     = Some (timed_out 30000)
  /\ signal_aborted
       (run Tests.health_request
          ([] ++ [rejection (current (run Tests.health_request []))
                    (ThrowError Tests.aborted)]))
     = false.
Proof.
  assert (Hnot : ~ In TimerFires (@nil event)) by (intros []).
  split; [reflexivity|]. split; [exact Hnot|]. split; [reflexivity|].
  split; [reflexivity|].
  apply (X17_timeout_error_without_timer Tests.client Health Tests.health_request
           [] Tests.aborted eq_refl Hnot eq_refl eq_refl).
Defined.

(** ** Blockchain and token are path text *)

Lemma address_path_assoc (blockchain token encoded suffix : jsstring) :
  address_path blockchain token encoded suffix
  = lit "/api/v1/" ++ (blockchain ++ lit "/" ++ token) ++ lit "/" ++ encoded ++ suffix.
Proof. unfold address_path. rewrite <- !app_assoc. reflexivity. Qed.

(** X18: unlike the address, blockchain and token are put into the path as
    they are, neither encoded nor checked against [BLOCKCHAINS] and [TOKENS]:
    two calls of [getTokenBalance] for the same address go to the same URL
    exactly when [blockchain/token] reads the same, so a [/] in one of them
    moves the boundary between the two path segments. *)
Theorem X18_blockchain_and_token_are_path_text (this : WdkIndexerClient)
    (blockchain1 token1 blockchain2 token2 address : jsstring)
    (s1 s2 : request_state) :
  getTokenBalance this blockchain1 token1 address = Normal s1 ->
  getTokenBalance this blockchain2 token2 address = Normal s2 ->
  (call_url s1 = call_url s2
   <-> blockchain1 ++ lit "/" ++ token1 = blockchain2 ++ lit "/" ++ token2).
Proof.
  unfold getTokenBalance.
  destruct (encodeURIComponent address) as [encoded|]; [|discriminate].
  simpl. intros [= <-] [= <-]. unfold _request, request_url. cbn [call_url].
  rewrite !address_path_assoc. split.
  - intros H. apply app_inv_head in H. apply (app_inv_head (lit "/api/v1/")) in H.
    rewrite !app_assoc in H. do 3 apply app_inv_tail in H.
    rewrite <- !app_assoc in H. exact H.
  - intros H.
    apply (f_equal (fun x => baseUrl this ++ lit "/api/v1/" ++ x ++ lit "/"
                             ++ encoded ++ lit "/token-balances")) in H.
    exact H.
Qed.

Lemma X18_witness_slash_in_token :
  getTokenBalance Tests.client (lit "ethereum") (lit "usdt/x") (lit "0x1234")
  = Normal (_request Tests.client GET
              (lit "/api/v1/ethereum/usdt/x/0x1234/token-balances") None)
  /\ getTokenBalance Tests.client (lit "ethereum/usdt") (lit "x") (lit "0x1234")
     = Normal (_request Tests.client GET
                 (lit "/api/v1/ethereum/usdt/x/0x1234/token-balances") None)
  /\ mem (lit "ethereum/usdt") BLOCKCHAINS = false
  /\ mem (lit "usdt/x") TOKENS = false
  /\ lit "ethereum" ++ lit "/" ++ lit "usdt/x"
     = lit "ethereum/usdt" ++ lit "/" ++ lit "x".
Proof.
  split; [reflexivity|]. split; [reflexivity|]. split; [reflexivity|].
  split; [reflexivity|].
  apply (proj1 (X18_blockchain_and_token_are_path_text Tests.client
                  (lit "ethereum") (lit "usdt/x") (lit "ethereum/usdt") (lit "x")
                  (lit "0x1234") _ _ eq_refl eq_refl)).
  reflexivity.
Defined.
